(** * Colour quality bar plots (colour/plotting/quality.py)

    A shallow embedding of the plotting glue of [colour.plotting.quality]:
    [colour_quality_bars_plot] and its four CRI / CQS wrappers.

    Conventions of the embedding.
    - Python floats (numpy float64) are modelled by exact rationals [Q];
      statements about them use [Qeq] ([==]).  The properties below look at
      integer multiples of the bar width 1/2, at absolute values, at
      comparisons with 0 and at a division by 100.
    - Keyword-argument bags ([**kwargs], [settings]) are [gmap string Value];
      [settings.update(kwargs)] is the left-biased union [kwargs ∪ settings].
    - A dict keyed by sample index is a [gmap Z _]; its iteration order is
      that of [map_to_list], which the source never relies on (it sorts).
    - matplotlib is not executed: a [Figure] records the arguments of every
      drawing call, in call order.
    - Exceptions are values of [PyError], carried by [Result]. *)

From Stdlib Require Import QArith Qabs Qminmax Qround Lqa.
From stdpp Require Import gmap strings list sorting pretty.

Local Open Scope string_scope.
Local Open Scope list_scope.

(** ** Python values, exceptions *)

Inductive Value :=
  | VNone
  | VBool (b : bool)
  | VInt (z : Z)
  | VFloat (q : Q)
  | VStr (s : string)
  | VTuple4 (a b c d : Q)
  | VAxes.

(** Truth value testing, as [if v:] does it. *)
Definition truthy (v : Value) : bool :=
  match v with
  | VNone => false
  | VBool b => b
  | VInt z => negb (z =? 0)%Z
  | VFloat q => negb (Qeq_bool q 0)
  | VStr s => negb (String.eqb s "")
  | VTuple4 _ _ _ _ => true
  | VAxes => true
  end.

Inductive PyError :=
  | UnboundLocalError (what : string)
  | StopIteration
  | TypeError (what : string)
  | OverflowError (what : string).

Inductive Result (A : Type) :=
  | Ok (a : A)
  | Raise (e : PyError).
Arguments Ok {A} a.
Arguments Raise {A} e.

#[global] Instance Result_ret : MRet Result := λ A a, Ok a.
#[global] Instance Result_bind : MBind Result := λ A B f r,
  match r with
  | Ok a => f a
  | Raise e => Raise e
  end.

(** ** numpy and builtins used by the module *)

(** [np.arange(start, stop, step)] on integers: [ceil((stop - start) / step)]
    values [start + k * step]. *)
Definition np_arange (start stop step : Z) : list Z :=
  (λ k : nat, start + Z.of_nat k * step)%Z
    <$> seq 0 (Z.to_nat (- ((start - stop) `div` step))%Z).

(** [range(start, stop, step)] has the same elements. *)
Definition py_range (start stop step : Z) : list Z := np_arange start stop step.

(** [np.clip(a, 0, 1)] on one channel. *)
Definition clip01 (a : Q) : Q := Qmin (Qmax a 0) 1.

(** [s * n] for a string [s]: no repetition for [n <= 0]. *)
Definition str_mul (s : string) (n : Z) : string :=
  String.concat "" (replicate (Z.to_nat n) s).

(** The largest repeat count and string length of CPython,
    [sys.maxsize], on a 64-bit build. *)
Definition PY_SSIZE_T_MAX : Z := 9223372036854775807.

(** [s * n] as CPython evaluates it: the count must fit an index
    ([OverflowError] otherwise, also for a negative count), and for a count
    of 1 or more the repeated string must be no longer than [sys.maxsize].
    A failed allocation ([MemoryError]) depends on the machine and is not
    modelled. *)
Definition str_repeat (s : string) (n : Z) : Result string :=
  if decide (n < - PY_SSIZE_T_MAX - 1 ∨ PY_SSIZE_T_MAX < n)%Z then
    Raise (OverflowError "cannot fit 'int' into an index-sized integer")
  else if decide (1 ≤ n ∧ PY_SSIZE_T_MAX `div` n < Z.of_nat (String.length s))%Z then
    Raise (OverflowError "repeated string is too long")
  else Ok (str_mul s n).

(** [s * v] for a dynamically typed [v]: integers and booleans repeat. *)
Definition str_mul_value (s : string) (v : Value) : Result string :=
  match v with
  | VInt n => str_repeat s n
  | VBool b => str_repeat s (if b then 1 else 0)
  | _ => Raise (TypeError "can't multiply sequence by non-int")
  end.

(** [itertools.cycle(palette)] is the palette and a position; [next] raises
    [StopIteration] on an empty palette. *)
Definition next_pattern (palette : list string) (pos : nat)
  : Result (string * nat) :=
  match palette !! (pos `mod` length palette)%nat with
  | Some p => Ok (p, S pos)
  | None => Raise StopIteration
  end.

(** ** Data model *)

Definition XYZ_t : Type := Q * Q * Q.
Definition RGB_t : Type := Q * Q * Q.

(** [colour.quality.cri.TCS_ColorimetryData(name, XYZ, uv, UVW)]. *)
Record TCS_ColorimetryData := mk_TCS_ColorimetryData {
  tcs_name : string;
  tcs_XYZ : XYZ_t;
  tcs_uv : Q * Q;
  tcs_UVW : Q * Q * Q
}.

(** The per-sample score records of CRI and CQS both carry [.Q_a]; the
    colorimetry records both carry [.XYZ].  The plot reads nothing else. *)
Class HasQ_a (TS : Type) := Q_a_of : TS → Q.
Class HasXYZ (TC : Type) := XYZ_of : TC → XYZ_t.

(** [TCS_ColourQualityScoreData(name, Q_a)]. *)
Record TCS_ColourQualityScoreData := mk_TCS_ColourQualityScoreData {
  score_name : string;
  score_Q_a : Q
}.

#[global] Instance TCS_score_Q_a : HasQ_a TCS_ColourQualityScoreData := score_Q_a.
#[global] Instance TCS_colorimetry_XYZ : HasXYZ TCS_ColorimetryData := tcs_XYZ.

(** A colour quality specification [(name, Q_a, Q_as, colorimetry_data)];
    [colorimetry_data] is the pair (test data, reference data). *)
Record Specification (TS TC : Type) := mk_Specification {
  name : string;
  Q_a : Q;
  Q_as : gmap Z TS;
  colorimetry_data : list TC * list TC
}.
Arguments mk_Specification {TS TC}.
Arguments name {TS TC}.
Arguments Q_a {TS TC}.
Arguments Q_as {TS TC}.
Arguments colorimetry_data {TS TC}.

(** ** The figure: a record of the drawing calls *)

Record BarContainer := mk_BarContainer {
  bar_x : list Q;
  bar_height : list Q;
  bar_color : list RGB_t;
  bar_bar_width : Q;
  bar_edgecolor : string;
  bar_label : string;
  bar_hatches : list (option string)      (* [set_hatch], patch by patch *)
}.

Record LabelCall := mk_LabelCall {
  lc_values : list Q;
  lc_bars : nat;                            (* which bar container *)
  lc_rotation : string;
  lc_offset : Q * Q;
  lc_text_size : Q
}.

Record Figure := mk_Figure {
  fig_artist : gmap string Value;
  fig_bars : list BarContainer;
  fig_labels : list LabelCall;
  fig_hlines : list (Q * string * string);
  fig_xticks : option (list Q * list string);
  fig_yticks : option (list Z);
  fig_renders : list (gmap string Value)
}.

(** [colour.plotting.artist]: a new, empty figure. *)
Definition artist (settings : gmap string Value) : Figure :=
  mk_Figure settings [] [] [] None None [].

Definition plt_bar (b : BarContainer) (f : Figure) : Figure :=
  mk_Figure (fig_artist f) (fig_bars f ++ [b]) (fig_labels f) (fig_hlines f)
            (fig_xticks f) (fig_yticks f) (fig_renders f).

Definition label_rectangles (c : LabelCall) (f : Figure) : Figure :=
  mk_Figure (fig_artist f) (fig_bars f) (fig_labels f ++ [c]) (fig_hlines f)
            (fig_xticks f) (fig_yticks f) (fig_renders f).

Definition axhline (y : Q) (color linestyle : string) (f : Figure) : Figure :=
  mk_Figure (fig_artist f) (fig_bars f) (fig_labels f)
            (fig_hlines f ++ [(y, color, linestyle)])
            (fig_xticks f) (fig_yticks f) (fig_renders f).

(** [axes.set_xticks(ticks, labels)] is recorded with the two lists the source
    hands over.  Whether matplotlib accepts a given pair of lists is its
    own behaviour and is not modelled: the properties below are stated on
    the figures the functions return. *)
Definition set_xticks (ticks : list Q) (labels : list string) (f : Figure)
  : Figure :=
  mk_Figure (fig_artist f) (fig_bars f) (fig_labels f) (fig_hlines f)
            (Some (ticks, labels)) (fig_yticks f) (fig_renders f).

Definition set_yticks (ticks : list Z) (f : Figure) : Figure :=
  mk_Figure (fig_artist f) (fig_bars f) (fig_labels f) (fig_hlines f)
            (fig_xticks f) (Some ticks) (fig_renders f).

(** [colour.plotting.render] returns the figure it was given. *)
Definition render (settings : gmap string Value) (f : Figure) : Figure :=
  mk_Figure (fig_artist f) (fig_bars f) (fig_labels f) (fig_hlines f)
            (fig_xticks f) (fig_yticks f) (fig_renders f ++ [settings]).

(** The style constants the module reads from [COLOUR_STYLE_CONSTANTS]. *)
Record StyleConstants := mk_StyleConstants {
  hatch_patterns : list string;
  colour_dark : string
}.

(** Modelled from the spec: the decorator [override_style] lives in
    [colour.plotting], outside this module; the spec describes the wrappers
    as thin entry points whose results are those of their bodies, so the
    decorator hands back what the function it wraps returns. *)
Definition override_style {A : Type} (function : A) : A := function.

(** ** [colour_quality_bars_plot] *)

Definition bar_width : Q := 1 # 2.
Definition y_ticks_interval : Z := 10.

(** [hatching = False if count_s == 1 else True], when [hatching is None]. *)
Definition resolve_hatching (hatching : Value) (count_s : nat) : Value :=
  match hatching with
  | VNone => if decide (count_s = 1%nat) then VBool false else VBool true
  | v => v
  end.

(** The group offsets
    [np.arange(0, (count_Q_as + 1) * (count_s + 1), (count_s + 1))]. *)
Definition group_offsets (count_Q_as count_s : nat) : list Z :=
  np_arange 0 ((Z.of_nat count_Q_as + 1) * (Z.of_nat count_s + 1))
            (Z.of_nat count_s + 1).

(** [x = (i + np.arange(...)) * bar_width]. *)
Definition bar_positions (i count_Q_as count_s : nat) : list Q :=
  (λ a : Z, (inject_Z (Z.of_nat i) + inject_Z a) * bar_width)%Q
    <$> group_offsets count_Q_as count_s.

(** [np.where(y < 0, pattern, None).tolist()]. *)
Definition negative_hatches (pattern : string) (y : list Q)
  : list (option string) :=
  (λ v : Q, if Qlt_le_dec v 0 then Some pattern else None) <$> y.

Section Plot.
Context {TS TC : Type} `{HasQ_a TS} `{HasXYZ TC}.
Variable COLOUR_STYLE_CONSTANTS : StyleConstants.
Variable XYZ_to_plotting_colourspace : XYZ_t → RGB_t.

Definition key_le (a b : Z * TS) : Prop := (a.1 ≤ b.1)%Z.

#[local] Instance key_le_dec (a b : Z * TS) : Decision (key_le a b) :=
  decide (a.1 ≤ b.1)%Z.

(** [sorted(Q_as.items(), key=lambda s: s[0])]. *)
Definition sorted_items (Q_as : gmap Z TS) : list (Z * TS) :=
  merge_sort key_le (map_to_list Q_as).

(** [y = np.array([Q_a] + [s[1].Q_a for s in sorted(...)])]. *)
Definition y_values (specification : Specification TS TC) : list Q :=
  Q_a specification :: ((λ s : Z * TS, Q_a_of s.2) <$> sorted_items (Q_as specification)).

(** [colours = [[1] * 3] + [np.clip(XYZ_to_plotting_colourspace(x.XYZ), 0, 1)
    for x in colorimetry_data[0]]]. *)
Definition clip_RGB (c : RGB_t) : RGB_t :=
  (clip01 c.1.1, clip01 c.1.2, clip01 c.2).

Definition bar_colours (specification : Specification TS TC) : list RGB_t :=
  (1, 1, 1)%Q ::
    ((λ x : TC, clip_RGB (XYZ_to_plotting_colourspace (XYZ_of x)))
       <$> (colorimetry_data specification).1).

(** [hatches]: one pattern is drawn from the cycle for every specification,
    on both branches of the conditional expression. *)
Definition hatches_for (hatching hatching_repeat : Value) (count_Q_as : nat)
    (y : list Q) (pos : nat) : Result (list (option string) * nat) :=
  '(pattern, pos') ← next_pattern (hatch_patterns COLOUR_STYLE_CONSTANTS) pos;
  if truthy hatching then
    glyph ← str_mul_value pattern hatching_repeat;
    mret (replicate (count_Q_as + 1) (Some glyph), pos')
  else
    mret (negative_hatches pattern y, pos').

(** The variables the [for] loop leaves behind. *)
Record LoopState := mk_LoopState {
  ls_patterns : nat;                       (* position of the cycle *)
  ls_count_Q_as : nat;
  ls_Q_as : option (gmap Z TS);             (* [None]: never bound *)
  ls_figure : Figure
}.

(** One iteration of [for i, specification in enumerate(specifications)]. *)
Definition plot_specification (labels hatching hatching_repeat : Value)
    (count_s i : nat) (specification : Specification TS TC) (st : LoopState)
    : Result LoopState :=
  let count_Q_as := size (Q_as specification) in
  let colours := bar_colours specification in
  let x := bar_positions i count_Q_as count_s in
  let y := y_values specification in
  '(hatches, pos') ← hatches_for hatching hatching_repeat count_Q_as y
                                 (ls_patterns st);
  let bars := mk_BarContainer x (Qabs <$> y) colours bar_width
                (colour_dark COLOUR_STYLE_CONSTANTS) (name specification)
                hatches in
  let figure := plt_bar bars (ls_figure st) in
  let figure :=
    if truthy labels then
      label_rectangles
        (mk_LabelCall y (length (fig_bars (ls_figure st)))
           (if decide (count_s = 1%nat) then "horizontal" else "vertical")
           (if decide (count_s = 1%nat) then 0
            else 3 / 100 * inject_Z (Z.of_nat count_s) + 65 / 1000,
            25 / 1000)%Q
           (- (5) / 7 * inject_Z (Z.of_nat count_s) + 125 / 10)%Q)
        figure
    else figure in
  mret (mk_LoopState pos' count_Q_as (Some (Q_as specification)) figure).

Fixpoint plot_specifications (labels hatching hatching_repeat : Value)
    (count_s i : nat) (specifications : list (Specification TS TC))
    (st : LoopState) : Result LoopState :=
  match specifications with
  | [] => mret st
  | specification :: rest =>
      st' ← plot_specification labels hatching hatching_repeat count_s i
              specification st;
      plot_specifications labels hatching hatching_repeat count_s (S i)
                          rest st'
  end.

(** The x-tick labels
    [['Qa'] + ['Q{0}'.format(index + 1)
               for index in range(0, count_Q_as + 1, 1)]]. *)
Definition xtick_labels (count_Q_as : nat) : list string :=
  "Qa" :: ((λ index : Z, "Q" +:+ pretty (index + 1)%Z)
             <$> py_range 0 (Z.of_nat count_Q_as + 1) 1).

(** The x-tick positions
    [np.arange(...) * bar_width + (count_s * bar_width / 2)]. *)
Definition xtick_positions (count_Q_as count_s : nat) : list Q :=
  (λ a : Z, inject_Z a * bar_width
            + inject_Z (Z.of_nat count_s) * bar_width / 2)%Q
    <$> group_offsets count_Q_as count_s.

Definition colour_quality_bars_plot
    (specifications : list (Specification TS TC))
    (labels hatching hatching_repeat : Value)
    (kwargs : gmap string Value) : Result Figure :=
  override_style (
  let settings := kwargs ∪ {[ "uniform" := VBool true ]} in
  let figure := artist settings in
  let count_s := length specifications in
  let hatching := resolve_hatching hatching count_s in
  st ← plot_specifications labels hatching hatching_repeat count_s 0
         specifications (mk_LoopState 0 0 None figure);
  let count_Q_as := ls_count_Q_as st in
  let figure := axhline 100 (colour_dark COLOUR_STYLE_CONSTANTS) "--"
                        (ls_figure st) in
  let figure := set_xticks (xtick_positions count_Q_as count_s)
                           (xtick_labels count_Q_as) figure in
  let figure := set_yticks (py_range 0 (100 + y_ticks_interval)
                                     y_ticks_interval) figure in
  match ls_Q_as st with
  | None => Raise (UnboundLocalError "Q_as")
  | Some Q_as =>
      let aspect :=
        (1 / (120 / (bar_width + inject_Z (Z.of_nat (size Q_as))
                     + bar_width * 2)))%Q in
      let bounding_box :=
        VTuple4 (- bar_width)
                (inject_Z ((Z.of_nat count_Q_as + 1)
                           * (Z.of_nat count_s + 1)) / 2)%Q
                0 120 in
      let settings : gmap string Value :=
        kwargs ∪ {[ "axes" := VAxes;
                    "aspect" := VFloat aspect;
                    "bounding_box" := bounding_box;
                    "legend" := hatching;
                    "title" := VStr "Colour Quality" ]} in
      mret (render settings figure)
  end).

(** The call [colour_quality_bars_plot(specifications, **settings)]: the
    named parameters are taken out of the bag, their defaults filled in. *)
Definition call_colour_quality_bars_plot
    (specifications : list (Specification TS TC))
    (settings : gmap string Value) : Result Figure :=
  if decide (is_Some (settings !! "specifications")) then
    Raise (TypeError "got multiple values for argument 'specifications'")
  else
    colour_quality_bars_plot specifications
      (default (VBool true) (settings !! "labels"))
      (default VNone (settings !! "hatching"))
      (default (VInt 2) (settings !! "hatching_repeat"))
      (delete "labels" (delete "hatching" (delete "hatching_repeat" settings))).

(** The bar container [b] is the one the loop body builds for
    specification [s], the [i]-th of [count_s], with the pattern cycle at
    position [pos]. *)
Definition drawn_from (hatching hatching_repeat : Value)
    (count_s i pos : nat) (s : Specification TS TC) (b : BarContainer)
    : Prop :=
  bar_x b = bar_positions i (size (Q_as s)) count_s ∧
  bar_height b = Qabs <$> y_values s ∧
  bar_color b = bar_colours s ∧
  bar_bar_width b = bar_width ∧
  bar_edgecolor b = colour_dark COLOUR_STYLE_CONSTANTS ∧
  bar_label b = name s ∧
  hatches_for hatching hatching_repeat (size (Q_as s)) (y_values s) pos
  = Ok (bar_hatches b, Datatypes.S pos).

End Plot.

(** ** The CRI and CQS wrappers *)

(** A spectral power distribution, as far as the wrappers look at it. *)
Record SpectralPowerDistribution := mk_SpectralPowerDistribution {
  strict_name : string;
  spd_values : list (Q * Q)                  (* wavelength, value *)
}.

(** The lists of colorimetry records are mutable objects: they live in a
    store, and a specification holds references to them. *)
Abbreviation loc := positive (only parsing).
Abbreviation heap := (gmap positive (list TCS_ColorimetryData)) (only parsing).

(** What [colour_rendering_index(spd, additional_data=True)] returns:
    [colorimetry_data] is a tuple of two list objects. *)
Record CRI_Specification := mk_CRI_Specification {
  cri_name : string;
  cri_Q_a : Q;
  cri_Q_as : gmap Z TCS_ColourQualityScoreData;
  cri_colorimetry_data : loc * loc
}.

(** Reading a specification's lists out of the store. *)
Definition load (h : heap) (s : CRI_Specification)
  : Specification TCS_ColourQualityScoreData TCS_ColorimetryData :=
  mk_Specification (cri_name s) (cri_Q_a s) (cri_Q_as s)
    (h !!! (cri_colorimetry_data s).1, h !!! (cri_colorimetry_data s).2).

(** [TCS_ColorimetryData(c_d.name, c_d.XYZ / 100, c_d.uv, c_d.UVW)]. *)
Definition XYZ_div (v : XYZ_t) (d : Q) : XYZ_t :=
  (v.1.1 / d, v.1.2 / d, v.2 / d)%Q.

Definition rescale (c_d : TCS_ColorimetryData) : TCS_ColorimetryData :=
  mk_TCS_ColorimetryData (tcs_name c_d) (XYZ_div (tcs_XYZ c_d) 100)
                         (tcs_uv c_d) (tcs_UVW c_d).

(** [for i, c_d in enumerate(colorimetry_data[0]):
       colorimetry_data[0][i] = TCS_ColorimetryData(...)]
    on the list object at [l]: the iterator reads the live list, the
    assignment writes into it. *)
Fixpoint rescale_items (l : loc) (indices : list nat) (h : heap) : heap :=
  match indices with
  | [] => h
  | i :: rest =>
      match (h !!! l) !! i with
      | Some c_d => rescale_items l rest (<[l := <[i := rescale c_d]> (h !!! l)]> h)
      | None => h
      end
  end.

Definition rescale_specification (h : heap) (specification : CRI_Specification)
  : heap :=
  let l := (cri_colorimetry_data specification).1 in
  rescale_items l (seq 0 (length (h !!! l))) h.

(** [for specification in specifications: ...]. *)
Definition rescale_specifications (specifications : list CRI_Specification)
    (h : heap) : heap :=
  foldl rescale_specification h specifications.

(** ['Colour Rendering Index - {0}'.format(', '.join(
      [spd.strict_name for spd in spds]))]. *)
Definition joined_names (spds : list SpectralPowerDistribution) : string :=
  String.concat ", " (strict_name <$> spds).

Section CRI.
Variable COLOUR_STYLE_CONSTANTS : StyleConstants.
Variable XYZ_to_plotting_colourspace : XYZ_t → RGB_t.
(** [colour.quality.colour_rendering_index], with the store it allocates
    its results in. *)
Variable colour_rendering_index :
  SpectralPowerDistribution → heap → CRI_Specification * heap.

(** [[colour_rendering_index(spd, additional_data=True) for spd in spds]]. *)
Fixpoint compute_specifications (spds : list SpectralPowerDistribution)
    (h : heap) : list CRI_Specification * heap :=
  match spds with
  | [] => ([], h)
  | spd :: rest =>
      let '(specification, h') := colour_rendering_index spd h in
      let '(specifications, h'') := compute_specifications rest h' in
      (specification :: specifications, h'')
  end.

Definition multi_spd_colour_rendering_index_bars_plot
    (spds : list SpectralPowerDistribution) (kwargs : gmap string Value)
    (h : heap) : Result Figure * heap :=
  override_style (
    let settings := <["standalone" := VBool false]> kwargs in
    let '(specifications, h1) := compute_specifications spds h in
    let h2 := rescale_specifications specifications h1 in
    let rendered :=
      figure ← call_colour_quality_bars_plot COLOUR_STYLE_CONSTANTS
                 XYZ_to_plotting_colourspace (load h2 <$> specifications)
                 settings;
      let title := "Colour Rendering Index - " +:+ joined_names spds in
      let settings : gmap string Value :=
        kwargs ∪ {[ "axes" := VAxes; "title" := VStr title ]} in
      mret (render settings figure) in
    (rendered, h2)).

(** [return multi_spd_colour_rendering_index_bars_plot([spd], ...)] with the
    keywords of [kwargs], a bag without the key [spds]: with that key the call
    names [spds] twice and Python raises [TypeError] before the multi-input
    wrapper runs, which this definition leaves out. *)
Definition single_spd_colour_rendering_index_bars_plot
    (spd : SpectralPowerDistribution) (kwargs : gmap string Value)
    (h : heap) : Result Figure * heap :=
  override_style (multi_spd_colour_rendering_index_bars_plot [spd] kwargs h).
End CRI.

Section CQS.
Context {TS TC : Type} `{HasQ_a TS} `{HasXYZ TC}.
Variable COLOUR_STYLE_CONSTANTS : StyleConstants.
Variable XYZ_to_plotting_colourspace : XYZ_t → RGB_t.
(** [colour.quality.colour_quality_scale]; its results are only read. *)
Variable colour_quality_scale : SpectralPowerDistribution → Specification TS TC.

Definition multi_spd_colour_quality_scale_bars_plot
    (spds : list SpectralPowerDistribution) (kwargs : gmap string Value)
    : Result Figure :=
  override_style (
    let settings := <["standalone" := VBool false]> kwargs in
    let specifications := colour_quality_scale <$> spds in
    figure ← call_colour_quality_bars_plot COLOUR_STYLE_CONSTANTS
               XYZ_to_plotting_colourspace specifications settings;
    let title := "Colour Quality Scale - " +:+ joined_names spds in
    let settings : gmap string Value :=
      kwargs ∪ {[ "axes" := VAxes; "title" := VStr title ]} in
    mret (render settings figure)).

(** [return multi_spd_colour_quality_scale_bars_plot([spd], ...)] with the
    keywords of [kwargs], a bag without the key [spds] (with it Python raises
    [TypeError] at this call, which this definition leaves out). *)
Definition single_spd_colour_quality_scale_bars_plot
    (spd : SpectralPowerDistribution) (kwargs : gmap string Value)
    : Result Figure :=
  override_style (multi_spd_colour_quality_scale_bars_plot [spd] kwargs).
End CQS.

(** A bar belongs to the group whose slot of [count_s + 1] bar widths (the
    [count_s] bars of the group and the gap after them) contains its
    position. *)
Definition group_of (count_s : nat) (x : Q) : Z :=
  Qfloor (x / (inject_Z (Z.of_nat count_s + 1) * bar_width)).

(** The positions of all bars of a figure that fall into group [k]. *)
Definition bars_in_group (count_s : nat) (k : Z) (f : Figure) : list Q :=
  filter (λ x, group_of count_s x = k) (concat (bar_x <$> fig_bars f)).

(** The bars of a figure form [n + 1] groups of [count_s] bars: groups
    [0 .. n] hold [count_s] bars each and no bar lies elsewhere, and every
    bar container puts exactly one bar into each of these groups, in order. *)
Definition grouped_evenly (count_s n : nat) (f : Figure) : Prop :=
  (∀ k : Z, length (bars_in_group count_s k f)
            = if decide (0 ≤ k ≤ Z.of_nat n)%Z then count_s else 0%nat) ∧
  Forall (λ b, group_of count_s <$> bar_x b
               = Z.of_nat <$> seq 0 (Datatypes.S n)) (fig_bars f).

(** A colour channel of the display range. *)
Definition in_unit (q : Q) : Prop := (0 <= q)%Q ∧ (q <= 1)%Q.


(** The list object a specification's test data lives in:
    [specification.colorimetry_data[0]]. *)
Definition test_loc (s : CRI_Specification) : loc := (cri_colorimetry_data s).1.

(** Equality of tristimulus values, as numbers. *)
Definition XYZ_eq (a b : XYZ_t) : Prop :=
  (a.1.1 == b.1.1)%Q ∧ (a.1.2 == b.1.2)%Q ∧ (a.2 == b.2)%Q.

(** The test data of a specification holds the same tristimulus values in
    two stores. *)
Definition colorimetry_unchanged (h_before h_after : heap)
    (s : CRI_Specification) : Prop :=
  Forall2 (λ c c', XYZ_eq (tcs_XYZ c) (tcs_XYZ c'))
          (h_before !!! test_loc s) (h_after !!! test_loc s).

(** The settings of the last [render] call, which decide title and legend. *)
Definition final_settings (f : Figure) : gmap string Value :=
  default ∅ (last (fig_renders f)).

(** The count [str * v] repeats by, when [v] is an integer or a boolean. *)
Definition repeat_count (v : Value) : option Z :=
  match v with
  | VInt n => Some n
  | VBool b => Some (if b then 1 else 0)%Z
  | _ => None
  end.

Section BarByBar.
Context {TS TC : Type} `{HasQ_a TS} `{HasXYZ TC}.
Variable XYZ_to_plotting_colourspace : XYZ_t → RGB_t.


End BarByBar.

(** ** Concrete inputs

    Two light sources with one and two test colour samples, a palette of
    hatch glyphs, a stand-in for the display colourspace conversion and a
    colour rendering index collaborator that allocates fresh lists. *)

Module Examples.

Definition style : StyleConstants :=
  mk_StyleConstants ["\\"; "o"; "x"; "."; "*"; "//"] "#333333".

Definition to_display (v : XYZ_t) : RGB_t := v.

Definition sample (n : string) (x y z : Q) : TCS_ColorimetryData :=
  mk_TCS_ColorimetryData n (x, y, z) (1 # 4, 1 # 3)%Q (50, 1, 2)%Q.

Definition score (n : string) (q : Q) : TCS_ColourQualityScoreData :=
  mk_TCS_ColourQualityScoreData n q.

Definition one_sample
  : Specification TCS_ColourQualityScoreData TCS_ColorimetryData :=
  mk_Specification "F2" 64
    {[ 1%Z := score "TCS01" 50 ]}
    ([sample "TCS01" (1 # 2) 1 (1 # 5)], [sample "TCS01" (1 # 2) 1 (1 # 4)]).

Definition two_samples
  : Specification TCS_ColourQualityScoreData TCS_ColorimetryData :=
  mk_Specification "Kinoton 75P" 90
    {[ 2%Z := score "TCS02" (-3); 1%Z := score "TCS01" 95 ]}
    ([sample "TCS01" (3 # 2) (1 # 3) (-1); sample "TCS02" 0 (1 # 2) 1],
     [sample "TCS01" 1 (1 # 3) 0; sample "TCS02" 0 (1 # 2) 1]).

Definition F2 : SpectralPowerDistribution :=
  mk_SpectralPowerDistribution "F2" [(380, 1); (385, 2)]%Q.

Definition Kinoton_75P : SpectralPowerDistribution :=
  mk_SpectralPowerDistribution "Kinoton 75P" [(380, 3); (385, 5)]%Q.

(** The first location above every allocated one. *)
Definition fresh_loc (h : heap) : loc :=
  Pos.succ (map_fold (λ l _ acc, Pos.max l acc) 1%positive h).

(** A collaborator in the [0, 100] domain: one test sample and one
    reference sample per source, each in a newly allocated list. *)
Definition cri (spd : SpectralPowerDistribution) (h : heap)
  : CRI_Specification * heap :=
  let l0 := fresh_loc h in
  let l1 := Pos.succ l0 in
  (mk_CRI_Specification (strict_name spd) 64
     {[ 1%Z := score "TCS01" 50 ]} (l0, l1),
   <[l1 := [sample "TCS01" 52 99 21]]>
     (<[l0 := [sample "TCS01" 50 100 20]]> h)).

End Examples.

(** ** Notions used by the further properties *)

(** The position of bar [k] of the [i]-th specification, in bar widths. *)
Definition bar_slot (count_s i k : nat) : Z :=
  (Z.of_nat i + Z.of_nat k * (Z.of_nat count_s + 1))%Z.

Section Labels.
Context {TS TC : Type} `{HasQ_a TS} `{HasXYZ TC}.

(** The call [label_rectangles(y, bars, rotation=..., offset=...,
    text_size=...)] made for specification [s], the [j]-th of [count_s]. *)
Definition labelled_from (count_s j : nat) (s : Specification TS TC)
    (c : LabelCall) : Prop :=
  lc_values c = y_values s ∧
  lc_bars c = j ∧
  lc_rotation c = (if decide (count_s = 1%nat) then "horizontal"
                   else "vertical") ∧
  ((lc_offset c).1 == if decide (count_s = 1%nat) then 0
                      else 3 / 100 * inject_Z (Z.of_nat count_s) + 65 / 1000)%Q ∧
  ((lc_offset c).2 == 25 / 1000)%Q ∧
  (lc_text_size c == 125 / 10 - 5 / 7 * inject_Z (Z.of_nat count_s))%Q.

End Labels.

(** A colour quality scale collaborator for the concrete inputs: the
    two-sample specification under the source's name. *)
Module MoreExamples.

Definition cqs (spd : SpectralPowerDistribution)
  : Specification TCS_ColourQualityScoreData TCS_ColorimetryData :=
  mk_Specification (strict_name spd) 90
    (Q_as Examples.two_samples) (colorimetry_data Examples.two_samples).

(** A palette of two patterns. *)
Definition two_patterns : StyleConstants :=
  mk_StyleConstants ["//"; "o"] "#333333".


End MoreExamples.

(** A colour rendering index collaborator that builds its test data in a
    list object of its own and leaves the lists it finds alone. *)
Definition allocates_fresh
    (colour_rendering_index :
       SpectralPowerDistribution → heap → CRI_Specification * heap) : Prop :=
  ∀ spd (h : heap),
    (test_loc (colour_rendering_index spd h).1 ∉ dom h) ∧
    (∀ l, l ∈ dom h → (colour_rendering_index spd h).2 !! l = h !! l).

(** * Properties *)

(** ** [np.arange] and the bar geometry *)

Lemma np_arange_length (n step : Z) :
  (0 ≤ n)%Z → (0 < step)%Z →
  length (np_arange 0 (n * step) step) = Z.to_nat n.
Proof.
  intros Hn Hstep. unfold np_arange. rewrite length_fmap, length_seq.
  f_equal. replace (0 - n * step)%Z with ((- n) * step)%Z by lia.
  rewrite Z.div_mul by lia. lia.
Qed.

Lemma np_arange_lookup (start stop step : Z) (k : nat) (a : Z) :
  np_arange start stop step !! k = Some a → a = (start + Z.of_nat k * step)%Z.
Proof.
  unfold np_arange. rewrite list_lookup_fmap.
  destruct (seq _ _ !! k) as [j|] eqn:Hj; simpl; [|done].
  apply lookup_seq in Hj as [-> _]. by intros [= <-].
Qed.

Lemma group_offsets_length (count_Q_as count_s : nat) :
  length (group_offsets count_Q_as count_s) = Datatypes.S count_Q_as.
Proof.
  unfold group_offsets. rewrite np_arange_length by lia. lia.
Qed.

Lemma group_offsets_eq (count_Q_as count_s : nat) :
  group_offsets count_Q_as count_s
  = (λ k : nat, Z.of_nat k * (Z.of_nat count_s + 1))%Z
      <$> seq 0 (Datatypes.S count_Q_as).
Proof.
  pose proof (group_offsets_length count_Q_as count_s) as Hlen.
  unfold group_offsets, np_arange in *.
  rewrite length_fmap, length_seq in Hlen. rewrite Hlen.
  apply list_fmap_ext. intros _ k _. lia.
Qed.

Lemma bar_positions_length (i count_Q_as count_s : nat) :
  length (bar_positions i count_Q_as count_s) = Datatypes.S count_Q_as.
Proof. unfold bar_positions. by rewrite length_fmap, group_offsets_length. Qed.

Lemma bar_positions_eq (i count_Q_as count_s : nat) :
  bar_positions i count_Q_as count_s
  = (λ k : nat,
       (inject_Z (Z.of_nat i)
        + inject_Z (Z.of_nat k * (Z.of_nat count_s + 1))) * bar_width)%Q
      <$> seq 0 (Datatypes.S count_Q_as).
Proof.
  unfold bar_positions. rewrite group_offsets_eq, <- list_fmap_compose.
  done.
Qed.

(** Bar [k] of specification [i] lies in group [k], whenever [i] is one of
    the [count_s] specifications. *)
Lemma group_of_position (i k count_s : nat) :
  (i < count_s)%nat →
  group_of count_s
    ((inject_Z (Z.of_nat i)
      + inject_Z (Z.of_nat k * (Z.of_nat count_s + 1))) * bar_width)%Q
  = Z.of_nat k.
Proof.
  intros Hi. unfold group_of.
  set (c := (Z.of_nat count_s + 1)%Z).
  assert (Hc : (0 < c)%Z) by (unfold c; lia).
  assert (Heq : ((inject_Z (Z.of_nat i) + inject_Z (Z.of_nat k * c)) * bar_width
                 / (inject_Z c * bar_width)
                 == (Z.of_nat i + Z.of_nat k * c) # (Z.to_pos c))%Q).
  { unfold bar_width, Qeq, Qdiv, Qmult, Qplus, Qinv, inject_Z. simpl.
    destruct c as [|p|p] eqn:Ec; try lia. simpl. lia. }
  rewrite Heq. unfold Qfloor. rewrite Z2Pos.id by lia.
  rewrite Z.div_add by lia. rewrite Z.div_small by (unfold c; lia). lia.
Qed.

(** ** What the loop of [colour_quality_bars_plot] draws *)

Section PlotFacts.
Context {TS TC : Type} `{HasQ_a TS} `{HasXYZ TC}.
Variable COLOUR_STYLE_CONSTANTS : StyleConstants.
Variable XYZ_to_plotting_colourspace : XYZ_t → RGB_t.

Local Abbreviation y_of := (y_values (TS:=TS) (TC:=TC)).
Local Abbreviation hatches := (hatches_for COLOUR_STYLE_CONSTANTS).
Local Abbreviation loop_body :=
  (plot_specification COLOUR_STYLE_CONSTANTS XYZ_to_plotting_colourspace).
Local Abbreviation loop :=
  (plot_specifications COLOUR_STYLE_CONSTANTS XYZ_to_plotting_colourspace).
Local Abbreviation plot :=
  (colour_quality_bars_plot COLOUR_STYLE_CONSTANTS XYZ_to_plotting_colourspace).
Local Abbreviation drawn :=
  (drawn_from COLOUR_STYLE_CONSTANTS XYZ_to_plotting_colourspace).

Lemma hatches_for_pos hatching hatching_repeat n y pos hs pos' :
  hatches hatching hatching_repeat n y pos = Ok (hs, pos') →
  pos' = Datatypes.S pos.
Proof.
  unfold hatches_for, next_pattern.
  destruct (_ !! _) as [p|]; simpl; [|done].
  destruct (truthy hatching); simpl.
  - destruct (str_mul_value p hatching_repeat); simpl; [|done].
    by intros [= _ <-].
  - by intros [= _ <-].
Qed.

Lemma plot_specification_spec labels hatching hatching_repeat count_s i s
    st st' :
  loop_body labels hatching hatching_repeat count_s i s st = Ok st' →
  ∃ b, drawn hatching hatching_repeat count_s i (ls_patterns st) s b ∧
       fig_bars (ls_figure st') = fig_bars (ls_figure st) ++ [b] ∧
       ls_patterns st' = Datatypes.S (ls_patterns st) ∧
       ls_count_Q_as st' = size (Q_as s) ∧
       ls_Q_as st' = Some (Q_as s) ∧
       fig_artist (ls_figure st') = fig_artist (ls_figure st) ∧
       fig_hlines (ls_figure st') = fig_hlines (ls_figure st) ∧
       fig_renders (ls_figure st') = fig_renders (ls_figure st).
Proof.
  unfold plot_specification.
  destruct (hatches _ _ _ _ _) as [[hs pos']|e] eqn:Hh; simpl; [|done].
  intros [= <-]. simpl.
  pose proof (hatches_for_pos _ _ _ _ _ _ _ Hh) as ->.
  eexists (mk_BarContainer _ _ _ _ _ _ _).
  split; [repeat split; simpl; try reflexivity; exact Hh|].
  destruct (truthy labels); simpl; done.
Qed.

Lemma plot_specifications_spec labels hatching hatching_repeat count_s :
  ∀ specs i st st',
    loop labels hatching hatching_repeat count_s i specs st
    = Ok st' →
    ∃ new,
      fig_bars (ls_figure st') = fig_bars (ls_figure st) ++ new ∧
      length new = length specs ∧
      (∀ j s, specs !! j = Some s →
         ∃ b, new !! j = Some b ∧
              drawn hatching hatching_repeat count_s (i + j)
                         (ls_patterns st + j) s b) ∧
      (ls_Q_as st', ls_count_Q_as st')
      = match last specs with
        | Some s => (Some (Q_as s), size (Q_as s))
        | None => (ls_Q_as st, ls_count_Q_as st)
        end ∧
      fig_artist (ls_figure st') = fig_artist (ls_figure st) ∧
      fig_hlines (ls_figure st') = fig_hlines (ls_figure st) ∧
      fig_renders (ls_figure st') = fig_renders (ls_figure st).
Proof.
  induction specs as [|s specs IH]; intros i st st'; simpl.
  - intros [= <-]. exists []. rewrite app_nil_r.
    repeat split; done.
  - destruct (loop_body _ _ _ _ _ _ _) as [st1|e] eqn:H1;
      simpl; [|done].
    intros H2.
    apply plot_specification_spec in H1
      as (b & Hb & Hbars & Hpos & HcQ & HQ & Ha & Hh & Hr).
    apply IH in H2 as (new & Hbars' & Hlen & Hnew & Hlast & Ha' & Hh' & Hr').
    exists (b :: new). repeat split.
    + rewrite Hbars', Hbars, <- app_assoc. done.
    + simpl. by rewrite Hlen.
    + intros [|j] s' Hs'; simpl in *.
      * injection Hs' as <-. exists b. split; [done|].
        by rewrite !Nat.add_0_r.
      * destruct (Hnew j s' Hs') as (b' & Hb' & Hd). exists b'.
        split; [done|]. rewrite Hpos in Hd.
        by replace (i + Datatypes.S j)%nat with (Datatypes.S i + j)%nat by lia;
           replace (ls_patterns st + Datatypes.S j)%nat
             with (Datatypes.S (ls_patterns st) + j)%nat by lia.
    + rewrite Hlast. destruct specs as [|s2 specs]; simpl.
      * by rewrite HQ, HcQ.
      * destruct (last (s2 :: specs)) eqn:E; [done|].
        by apply last_None in E.
    + congruence.
    + congruence.
    + congruence.
Qed.

(** The whole function: what a returned figure holds. *)
Lemma colour_quality_bars_plot_spec specs labels hatching hatching_repeat
    kwargs fig :
  plot specs labels hatching hatching_repeat kwargs
  = Ok fig →
  ∃ s_last,
    last specs = Some s_last ∧
    length (fig_bars fig) = length specs ∧
    (∀ j s, specs !! j = Some s →
       ∃ b, fig_bars fig !! j = Some b ∧
            drawn (resolve_hatching hatching (length specs))
                       hatching_repeat (length specs) j j s b) ∧
    fig_xticks fig
    = Some (xtick_positions (size (Q_as s_last)) (length specs),
            xtick_labels (size (Q_as s_last))) ∧
    fig_yticks fig = Some (py_range 0 (100 + y_ticks_interval) y_ticks_interval) ∧
    fig_hlines fig = [(100%Q, colour_dark COLOUR_STYLE_CONSTANTS, "--")] ∧
    (∃ settings, fig_renders fig = [settings] ∧
       (kwargs !! "legend" = None →
        settings !! "legend"
        = Some (resolve_hatching hatching (length specs))) ∧
       (kwargs !! "title" = None →
        settings !! "title" = Some (VStr "Colour Quality"))).
Proof.
  unfold colour_quality_bars_plot, override_style.
  destruct (loop _ _ _ _ _ _ _) as [st|e] eqn:Hloop;
    simpl; [|done].
  apply plot_specifications_spec in Hloop
    as (new & Hbars & Hlen & Hnew & Hlast & Ha & Hh & Hr).
  simpl in *.
  destruct (ls_Q_as st) as [Q|] eqn:HQ; [|done].
  intros [= <-]. simpl.
  destruct (last specs) as [s_last|] eqn:Hl; [|done].
  injection Hlast as -> ->.
  exists s_last. repeat split; try done.
  - by rewrite Hbars.
  - intros j s Hs. destruct (Hnew j s Hs) as (b & Hb & Hd).
    exists b. by rewrite Hbars.
  - by rewrite Hh.
  - rewrite Hr. eexists. split; [done|]. split; intros Hk.
    + rewrite lookup_union_r by done. by simplify_map_eq.
    + rewrite lookup_union_r by done. by simplify_map_eq.
Qed.

End PlotFacts.

(** ** Bar groups (C1) *)

Lemma filter_eq_seq_length (k : Z) (m : nat) :
  length (filter (λ z : Z, z = k) (Z.of_nat <$> seq 0 m))
  = if decide (0 ≤ k < Z.of_nat m)%Z then 1%nat else 0%nat.
Proof.
  induction m as [|m IH].
  - simpl. case_decide; [lia|done].
  - rewrite seq_S, fmap_app, filter_app, length_app, IH. simpl.
    rewrite filter_cons, filter_nil.
    repeat case_decide; simpl; lia.
Qed.

Lemma group_filter_length (count_s : nat) (k : Z) (xs : list Q) :
  length (filter (λ x, group_of count_s x = k) xs)
  = length (filter (λ z : Z, z = k) (group_of count_s <$> xs)).
Proof.
  induction xs as [|x xs IH]; [done|].
  rewrite fmap_cons, !filter_cons. repeat case_decide; simpl; congruence.
Qed.

Lemma bars_in_group_length (count_s n : nat) (k : Z) (bars : list BarContainer) :
  Forall (λ b, group_of count_s <$> bar_x b
               = Z.of_nat <$> seq 0 (Datatypes.S n)) bars →
  length (filter (λ x, group_of count_s x = k) (concat (bar_x <$> bars)))
  = if decide (0 ≤ k ≤ Z.of_nat n)%Z then length bars else 0%nat.
Proof.
  induction 1 as [|b bars Hb _ IH].
  - simpl. by case_decide.
  - rewrite fmap_cons. cbn [concat].
    rewrite filter_app, length_app, IH, group_filter_length, Hb,
      filter_eq_seq_length.
    repeat case_decide; simpl; lia.
Qed.

Section BarGroups.
Context {TS TC : Type} `{HasQ_a TS} `{HasXYZ TC}.
Variable COLOUR_STYLE_CONSTANTS : StyleConstants.
Variable XYZ_to_plotting_colourspace : XYZ_t → RGB_t.

(** Every bar container, whatever the other specifications look like,
    holds [len(Q_as) + 1] bars, the [k]-th of them in group [k]. *)
Lemma bar_container_groups (specs : list (Specification TS TC))
    labels hatching hatching_repeat kwargs fig j s b :
  colour_quality_bars_plot COLOUR_STYLE_CONSTANTS XYZ_to_plotting_colourspace
    specs labels hatching hatching_repeat kwargs = Ok fig →
  specs !! j = Some s →
  fig_bars fig !! j = Some b →
  group_of (length specs) <$> bar_x b
  = Z.of_nat <$> seq 0 (Datatypes.S (size (Q_as s))).
Proof.
  intros Hfig Hs Hb.
  apply colour_quality_bars_plot_spec in Hfig as (_ & _ & _ & Hdrawn & _).
  destruct (Hdrawn j s Hs) as (b' & Hb' & Hx & _).
  assert (b' = b) as -> by congruence.
  rewrite Hx, bar_positions_eq, <- list_fmap_compose.
  apply list_fmap_ext. intros _ k _. simpl.
  apply group_of_position. by eapply lookup_lt_Some.
Qed.

(** C1, amended: for every non-empty list of specifications that all have
    the same number [n] of per-sample scores, the bars drawn form [n + 1]
    groups (the overall-score group and one per sample) of one bar per
    specification: groups [0 .. n] hold [len(specifications)] bars each, no
    bar lies outside them, there is one bar container per specification and
    each container puts exactly one bar into every group. *)
Theorem bar_groups_uniform (specs : list (Specification TS TC))
    labels hatching hatching_repeat kwargs fig (n : nat) :
  specs ≠ [] →
  Forall (λ s, size (Q_as s) = n) specs →
  colour_quality_bars_plot COLOUR_STYLE_CONSTANTS XYZ_to_plotting_colourspace
    specs labels hatching hatching_repeat kwargs = Ok fig →
  length (fig_bars fig) = length specs ∧
  grouped_evenly (length specs) n fig.
Proof.
  intros _ Hn Hfig.
  pose proof (colour_quality_bars_plot_spec _ _ _ _ _ _ _ _ Hfig)
    as (_ & _ & Hlen & _).
  assert (Hall : Forall (λ b, group_of (length specs) <$> bar_x b
                              = Z.of_nat <$> seq 0 (Datatypes.S n))
                        (fig_bars fig)).
  { apply Forall_lookup. intros j b Hb.
    assert (is_Some (specs !! j)) as [s Hs].
    { apply lookup_lt_is_Some. rewrite <- Hlen. by eapply lookup_lt_Some. }
    rewrite (bar_container_groups _ _ _ _ _ _ _ _ _ Hfig Hs Hb).
    rewrite Forall_lookup in Hn. by rewrite (Hn j s Hs). }
  split; [done|]. split; [|done].
  intros k. unfold bars_in_group.
  rewrite (bars_in_group_length _ n k _ Hall), Hlen. done.
Qed.

End BarGroups.

(** C1, witness: two specifications with one sample each. *)
Lemma bar_groups_uniform_witness :
  ∃ fig,
    colour_quality_bars_plot Examples.style Examples.to_display
      [Examples.one_sample; Examples.one_sample] (VBool true) VNone (VInt 2) ∅
    = Ok fig ∧
    length (fig_bars fig) = 2%nat ∧ grouped_evenly 2 1 fig.
Proof.
  eexists. split; [reflexivity|].
  apply (bar_groups_uniform Examples.style Examples.to_display
           [Examples.one_sample; Examples.one_sample]
           (VBool true) VNone (VInt 2) ∅ _ 1);
    [discriminate | repeat constructor | reflexivity].
Defined.

(** C1, as stated, fails when the specifications disagree on the number of
    samples: a one-sample and a two-sample specification give three groups,
    the last of which holds a single bar although two specifications were
    passed; for no [n] are the bars grouped evenly. *)
Lemma bar_groups_mismatched :
  ∃ fig,
    colour_quality_bars_plot Examples.style Examples.to_display
      [Examples.one_sample; Examples.two_samples] (VBool true) VNone (VInt 2) ∅
    = Ok fig ∧
    length (bars_in_group 2 2 fig) = 1%nat ∧
    ¬ ∃ n, grouped_evenly 2 n fig.
Proof.
  eexists. split; [reflexivity|].
  split; [vm_compute; reflexivity|].
  intros [n [Hn _]]. specialize (Hn 2%Z).
  change (length (bars_in_group 2 2 _)) with 1%nat in Hn.
  case_decide; lia.
Qed.

(** ** X-tick labels (C2) *)

Lemma py_range_eq (n : nat) :
  py_range 0 (Z.of_nat n) 1 = Z.of_nat <$> seq 0 n.
Proof.
  unfold py_range, np_arange.
  replace (Z.to_nat (- ((0 - Z.of_nat n) `div` 1))) with n
    by (rewrite Z.div_1_r; lia).
  apply list_fmap_ext. intros _ k _. lia.
Qed.

(** The labels are ["Qa"], then ["Q1"] up to ["Q{count_Q_as + 1}"]. *)
Lemma xtick_labels_eq (count_Q_as : nat) :
  xtick_labels count_Q_as
  = "Qa" :: ((λ k : nat, "Q" +:+ pretty (Z.of_nat k + 1)%Z)
               <$> seq 0 (Datatypes.S count_Q_as)).
Proof.
  unfold xtick_labels.
  replace (Z.of_nat count_Q_as + 1)%Z with (Z.of_nat (Datatypes.S count_Q_as))
    by lia.
  by rewrite py_range_eq, <- list_fmap_compose.
Qed.

Lemma xtick_labels_length (count_Q_as : nat) :
  length (xtick_labels count_Q_as) = (count_Q_as + 2)%nat.
Proof. rewrite xtick_labels_eq. simpl. rewrite length_fmap, length_seq. lia. Qed.

Lemma xtick_positions_length (count_Q_as count_s : nat) :
  length (xtick_positions count_Q_as count_s) = (count_Q_as + 1)%nat.
Proof.
  unfold xtick_positions. rewrite length_fmap, group_offsets_length. lia.
Qed.

Section TickLabels.
Context {TS TC : Type} `{HasQ_a TS} `{HasXYZ TC}.
Variable COLOUR_STYLE_CONSTANTS : StyleConstants.
Variable XYZ_to_plotting_colourspace : XYZ_t → RGB_t.

(** On every call that returns, [set_xticks] is handed one label more than
    tick positions: the positions are one per bar group of the last
    specification, the labels run up to ["Q{count_Q_as + 1}"]. *)
Lemma xticks_one_label_too_many (specs : list (Specification TS TC))
    labels hatching hatching_repeat kwargs fig :
  colour_quality_bars_plot COLOUR_STYLE_CONSTANTS XYZ_to_plotting_colourspace
    specs labels hatching hatching_repeat kwargs = Ok fig →
  ∃ s_last ticks tick_labels,
    last specs = Some s_last ∧
    fig_xticks fig = Some (ticks, tick_labels) ∧
    length ticks = (size (Q_as s_last) + 1)%nat ∧
    length tick_labels = (size (Q_as s_last) + 2)%nat ∧
    last tick_labels
    = Some ("Q" +:+ pretty (Z.of_nat (size (Q_as s_last)) + 1)%Z).
Proof.
  intros Hfig.
  apply colour_quality_bars_plot_spec in Hfig as (s & Hs & _ & _ & Hx & _).
  exists s, (xtick_positions (size (Q_as s)) (length specs)),
         (xtick_labels (size (Q_as s))).
  repeat split; try done.
  - apply xtick_positions_length.
  - apply xtick_labels_length.
  - rewrite xtick_labels_eq, seq_S, fmap_app. simpl.
    rewrite app_comm_cons. apply last_snoc.
Qed.

End TickLabels.

(** C2, at the failing input: for a single specification with one sample
    the call hands [set_xticks] two tick positions, one per bar group, and
    the three labels ["Qa"; "Q1"; "Q2"], not ["Qa"; "Q1"]. *)
Theorem xtick_labels_one_sample :
  ∃ fig ticks,
    colour_quality_bars_plot Examples.style Examples.to_display
      [Examples.one_sample] (VBool true) VNone (VInt 2) ∅ = Ok fig ∧
    size (Q_as Examples.one_sample) = 1%nat ∧
    (length <$> (bar_x <$> fig_bars fig)) = [2%nat] ∧
    fig_xticks fig = Some (ticks, ["Qa"; "Q1"; "Q2"]) ∧
    length ticks = 2%nat.
Proof.
  eexists. eexists. split; [reflexivity|].
  repeat split; vm_compute; reflexivity.
Qed.

(** ** Hatching (C4, C5) *)

Lemma negative_hatches_lookup (pattern : string) (y : list Q) (k : nat) (v : Q) :
  y !! k = Some v →
  ∃ h, negative_hatches pattern y !! k = Some h ∧ (is_Some h ↔ (v < 0)%Q).
Proof.
  intros Hk. unfold negative_hatches. rewrite list_lookup_fmap, Hk. simpl.
  eexists. split; [done|].
  destruct (Qlt_le_dec v 0) as [Hlt|Hle].
  - split; [done|]. by eexists.
  - split; [intros [? [=]]|]. intros Hlt. by apply Qle_not_lt in Hle.
Qed.

Lemma resolve_hatching_auto (count_s : nat) :
  resolve_hatching VNone count_s = VBool (negb (count_s =? 1)%nat).
Proof.
  unfold resolve_hatching. case_decide as Hc.
  - by rewrite Hc.
  - apply Nat.eqb_neq in Hc. by rewrite Hc.
Qed.

Section Hatching.
Context {TS TC : Type} `{HasQ_a TS} `{HasXYZ TC}.
Variable COLOUR_STYLE_CONSTANTS : StyleConstants.
Variable XYZ_to_plotting_colourspace : XYZ_t → RGB_t.

Local Abbreviation plot :=
  (colour_quality_bars_plot COLOUR_STYLE_CONSTANTS XYZ_to_plotting_colourspace).

Lemma hatches_for_disabled hatching hatching_repeat n y pos hs pos' :
  truthy hatching = false →
  hatches_for COLOUR_STYLE_CONSTANTS hatching hatching_repeat n y pos
  = Ok (hs, pos') →
  ∃ pattern, hs = negative_hatches pattern y.
Proof.
  intros Hf. unfold hatches_for.
  destruct (next_pattern _ _) as [[p q]|e]; simpl; [|done].
  rewrite Hf. intros [= <- _]. by exists p.
Qed.

Lemma hatches_for_enabled hatching hatching_repeat n y pos hs pos' :
  truthy hatching = true →
  hatches_for COLOUR_STYLE_CONSTANTS hatching hatching_repeat n y pos
  = Ok (hs, pos') →
  ∃ glyph, hs = replicate (n + 1) (Some glyph).
Proof.
  intros Hf. unfold hatches_for.
  destruct (next_pattern _ _) as [[p q]|e]; simpl; [|done].
  rewrite Hf. destruct (str_mul_value p hatching_repeat) as [g|e]; simpl;
    [|done].
  intros [= <- _]. by exists g.
Qed.

(** C4: with [hatching=False], in every bar container the [k]-th bar
    receives a hatch marker (a value other than [None] goes to [set_hatch])
    if and only if the [k]-th score of the series is negative. *)
Theorem hatching_disabled_negative_only (specs : list (Specification TS TC))
    labels hatching_repeat kwargs fig j s :
  plot specs labels (VBool false) hatching_repeat kwargs = Ok fig →
  specs !! j = Some s →
  ∃ b, fig_bars fig !! j = Some b ∧
       length (bar_hatches b) = length (y_values s) ∧
       ∀ k v, y_values s !! k = Some v →
              ∃ h, bar_hatches b !! k = Some h ∧ (is_Some h ↔ (v < 0)%Q).
Proof.
  intros Hfig Hs.
  apply colour_quality_bars_plot_spec in Hfig as (_ & _ & _ & Hdrawn & _).
  destruct (Hdrawn j s Hs) as (b & Hb & _ & _ & _ & _ & _ & _ & Hh).
  exists b. split; [done|].
  apply hatches_for_disabled in Hh as [p ->]; [|done].
  split.
  - unfold negative_hatches. by rewrite length_fmap.
  - intros k v Hk. by apply negative_hatches_lookup.
Qed.

(** C5: with [hatching=None], on a call that returns, hatching resolves to
    [False] exactly when one specification is passed and to [True] for more
    than one; the resolved value is what reaches [render] as the legend flag
    (unless the caller passes a legend of their own), and it decides the
    hatches: with one specification only negative scores are hatched, with
    more every bar of a container carries the same glyph. *)
Theorem hatching_auto (specs : list (Specification TS TC))
    labels hatching_repeat kwargs fig :
  plot specs labels VNone hatching_repeat kwargs = Ok fig →
  (resolve_hatching VNone (length specs) = VBool false
   ↔ length specs = 1%nat) ∧
  (1 < length specs → resolve_hatching VNone (length specs) = VBool true) ∧
  (kwargs !! "legend" = None →
   final_settings fig !! "legend"
   = Some (resolve_hatching VNone (length specs))) ∧
  (∀ j s, specs !! j = Some s →
     ∃ b, fig_bars fig !! j = Some b ∧
          if decide (length specs = 1%nat)
          then ∃ pattern, bar_hatches b = negative_hatches pattern (y_values s)
          else ∃ glyph,
                 bar_hatches b = replicate (size (Q_as s) + 1) (Some glyph)).
Proof.
  intros Hfig.
  apply colour_quality_bars_plot_spec in Hfig
    as (_ & _ & _ & Hdrawn & _ & _ & _ & settings & Hr & Hlegend & _).
  split; [|split; [|split]].
  - rewrite resolve_hatching_auto. split.
    + intros [= Hb]. apply negb_false_iff in Hb. by apply Nat.eqb_eq in Hb.
    + intros ->. done.
  - intros Hlt. rewrite resolve_hatching_auto.
    destruct (Nat.eqb_spec (length specs) 1); [lia|done].
  - intros Hk. unfold final_settings. rewrite Hr. simpl. by apply Hlegend.
  - intros j s Hs.
    destruct (Hdrawn j s Hs) as (b & Hb & _ & _ & _ & _ & _ & _ & Hh).
    exists b. split; [done|].
    rewrite resolve_hatching_auto in Hh.
    case_decide as Hc.
    + rewrite Hc in Hh. by apply hatches_for_disabled in Hh.
    + apply Nat.eqb_neq in Hc. rewrite Hc in Hh.
      by apply hatches_for_enabled in Hh.
Qed.

End Hatching.

(** C4, witness: the two-sample source, whose second score is negative. *)
Lemma hatching_disabled_negative_only_witness :
  ∃ fig,
    colour_quality_bars_plot Examples.style Examples.to_display
      [Examples.two_samples] (VBool true) (VBool false) (VInt 2) ∅ = Ok fig ∧
    (bar_hatches <$> fig_bars fig) = [[None; None; Some "\\"]] ∧
    ∃ b, fig_bars fig !! 0%nat = Some b ∧
         length (bar_hatches b) = length (y_values Examples.two_samples) ∧
         ∀ k v, y_values Examples.two_samples !! k = Some v →
                ∃ h, bar_hatches b !! k = Some h ∧ (is_Some h ↔ (v < 0)%Q).
Proof.
  eexists. split; [reflexivity|]. split; [vm_compute; reflexivity|].
  apply (hatching_disabled_negative_only Examples.style Examples.to_display
           [Examples.two_samples] (VBool true) (VInt 2) ∅ _ 0
           Examples.two_samples); reflexivity.
Defined.

(** C5, witness: one specification, hatching left at [None]. *)
Lemma hatching_auto_witness :
  ∃ fig,
    colour_quality_bars_plot Examples.style Examples.to_display
      [Examples.two_samples] (VBool true) VNone (VInt 2) ∅ = Ok fig ∧
    (bar_hatches <$> fig_bars fig) = [[None; None; Some "\\"]] ∧
    final_settings fig !! "legend" = Some (VBool false).
Proof.
  eexists. split; [reflexivity|].
  split; [vm_compute; reflexivity|].
  refine (proj1 (proj2 (proj2
            (hatching_auto Examples.style Examples.to_display
               [Examples.two_samples] (VBool true) (VInt 2) ∅ _ _))) _);
    reflexivity.
Defined.

(** ** The series of a specification: order, fills, heights (C7, C10) *)


Lemma clip01_id (a : Q) : in_unit a → (clip01 a == a)%Q.
Proof.
  intros [H0 H1]. unfold clip01.
  rewrite Q.max_l by done. by rewrite Q.min_l.
Qed.

Section Series.
Context {TS TC : Type} `{HasQ_a TS} `{HasXYZ TC}.
Variable COLOUR_STYLE_CONSTANTS : StyleConstants.
Variable XYZ_to_plotting_colourspace : XYZ_t → RGB_t.

Local Abbreviation plot :=
  (colour_quality_bars_plot COLOUR_STYLE_CONSTANTS XYZ_to_plotting_colourspace).

#[local] Instance key_le_total : Total (key_le (TS:=TS)).
Proof. intros a b. unfold key_le. lia. Qed.

#[local] Instance key_le_trans : Transitive (key_le (TS:=TS)).
Proof. intros a b c. unfold key_le. lia. Qed.

Lemma ascending_strict (items : list (Z * TS)) :
  StronglySorted key_le items → NoDup items.*1 →
  StronglySorted (λ a b, a.1 < b.1)%Z items.
Proof.
  induction 1 as [|a items _ IH Hall]; intros Hnd; [constructor|].
  rewrite fmap_cons in Hnd. apply NoDup_cons in Hnd as [Hnotin Hnd].
  constructor; [by apply IH|].
  rewrite Forall_forall in Hall |- *. intros b Hb.
  specialize (Hall b Hb). unfold key_le in Hall.
  assert (a.1 ≠ b.1) by (intros Heq; apply Hnotin; rewrite Heq;
                         by apply list_elem_of_fmap_2).
  lia.
Qed.

(** The items of [Q_as] come sorted by strictly ascending sample key. *)
Lemma sorted_items_spec (m : gmap Z TS) :
  sorted_items m ≡ₚ map_to_list m ∧
  StronglySorted (λ a b, a.1 < b.1)%Z (sorted_items m).
Proof.
  unfold sorted_items. split; [apply merge_sort_Permutation|].
  apply ascending_strict.
  - apply (StronglySorted_merge_sort _).
  - rewrite merge_sort_Permutation. apply NoDup_fst_map_to_list.
Qed.

Lemma sorted_items_length (m : gmap Z TS) : length (sorted_items m) = size m.
Proof.
  destruct (sorted_items_spec m) as [Hp _].
  by rewrite Hp, length_map_to_list.
Qed.

Lemma y_values_length (s : Specification TS TC) :
  length (y_values s) = Datatypes.S (size (Q_as s)).
Proof. unfold y_values. simpl. by rewrite length_fmap, sorted_items_length. Qed.



End Series.




(** ** The rescale loop of the CRI wrapper and the store (C3, C6) *)

Lemma rescale_items_frame (l l' : loc) (indices : list nat) (h : heap) :
  l' ≠ l → rescale_items l indices h !! l' = h !! l'.
Proof.
  intros Hne. revert h. induction indices as [|i indices IH]; intros h; simpl.
  - done.
  - destruct ((h !!! l) !! i) as [c_d|]; [|done].
    rewrite IH. by rewrite lookup_insert_ne.
Qed.

Lemma rescale_items_at (l : loc) (m : nat) :
  ∀ (k : nat) (h : heap),
    (k + m)%nat = length (h !!! l) →
    rescale_items l (seq k m) h !!! l
    = take k (h !!! l) ++ (rescale <$> drop k (h !!! l)).
Proof.
  induction m as [|m IH]; intros k h Hlen; simpl.
  - rewrite drop_ge, take_ge by lia. by rewrite app_nil_r.
  - destruct ((h !!! l) !! k) as [c_d|] eqn:Hk.
    + rewrite IH.
      * rewrite lookup_total_insert_eq.
        rewrite (take_S_r _ _ (rescale c_d))
          by (apply list_lookup_insert_eq; by eapply lookup_lt_Some).
        rewrite take_insert_ge by lia.
        rewrite drop_insert_lt by lia.
        rewrite (drop_S _ _ _ Hk), fmap_cons, <- app_assoc. done.
      * rewrite lookup_total_insert_eq, length_insert. lia.
    + apply lookup_ge_None in Hk. lia.
Qed.

(** The inner loop replaces the list at [colorimetry_data[0]] by its
    rescaled copy, in place, and touches no other list. *)
Lemma rescale_specification_at (h : heap) (s : CRI_Specification) :
  rescale_specification h s !!! test_loc s = rescale <$> (h !!! test_loc s).
Proof.
  unfold rescale_specification. fold (test_loc s).
  rewrite (rescale_items_at _ _ 0) by done. by rewrite take_0, drop_0.
Qed.

Lemma rescale_specification_frame (h : heap) (s : CRI_Specification) (l : loc) :
  l ≠ test_loc s → rescale_specification h s !! l = h !! l.
Proof. intros Hne. by apply rescale_items_frame. Qed.

Lemma rescale_specification_total (h : heap) (s : CRI_Specification) (l : loc) :
  rescale_specification h s !!! l
  = if decide (test_loc s = l) then rescale <$> (h !!! l) else h !!! l.
Proof.
  case_decide as Hl.
  - subst l. apply rescale_specification_at.
  - rewrite !lookup_total_alt, rescale_specification_frame; done.
Qed.

(** The outer loop: a list is rescaled once for every specification whose
    [colorimetry_data[0]] it is. *)
Lemma rescale_specifications_at (specs : list CRI_Specification) (l : loc) :
  ∀ h : heap,
    rescale_specifications specs h !!! l
    = Nat.iter (length (filter (λ s, test_loc s = l) specs))
               (fmap rescale) (h !!! l).
Proof.
  unfold rescale_specifications.
  induction specs as [|s specs IH]; intros h; simpl; [done|].
  rewrite IH, rescale_specification_total, filter_cons.
  case_decide; simpl; [|done].
  by rewrite <- Nat.iter_succ, Nat.iter_succ_r.
Qed.

Lemma rescale_specifications_frame (specs : list CRI_Specification) (l : loc) :
  ∀ h : heap,
    l ∉ test_loc <$> specs → rescale_specifications specs h !! l = h !! l.
Proof.
  unfold rescale_specifications.
  induction specs as [|s specs IH]; intros h Hl; simpl; [done|].
  rewrite fmap_cons, not_elem_of_cons in Hl. destruct Hl as [Hne Hl].
  rewrite IH by done. by apply rescale_specification_frame.
Qed.

Lemma filter_test_loc_absent (specs : list CRI_Specification) (l : loc) :
  l ∉ test_loc <$> specs → filter (λ s, test_loc s = l) specs = [].
Proof.
  induction specs as [|s specs IH]; intros Hl; [done|].
  rewrite fmap_cons, not_elem_of_cons in Hl. destruct Hl as [Hne Hl].
  rewrite filter_cons, decide_False by done. by apply IH.
Qed.

Lemma filter_test_loc_NoDup (specs : list CRI_Specification) (s : CRI_Specification) :
  NoDup (test_loc <$> specs) → s ∈ specs →
  length (filter (λ s', test_loc s' = test_loc s) specs) = 1%nat.
Proof.
  induction specs as [|s' specs IH]; intros Hnd Hin; [by apply elem_of_nil in Hin|].
  rewrite fmap_cons in Hnd. apply NoDup_cons in Hnd as [Hnotin Hnd].
  rewrite filter_cons. apply elem_of_cons in Hin as [->|Hin].
  - rewrite decide_True by done. simpl.
    by rewrite filter_test_loc_absent.
  - rewrite decide_False; [by apply IH|].
    intros Heq. apply Hnotin. rewrite Heq. by apply list_elem_of_fmap_2.
Qed.

Section CRIFacts.
Variable COLOUR_STYLE_CONSTANTS : StyleConstants.
Variable XYZ_to_plotting_colourspace : XYZ_t → RGB_t.
Variable colour_rendering_index :
  SpectralPowerDistribution → heap → CRI_Specification * heap.

Local Abbreviation computed := (compute_specifications colour_rendering_index).
Local Abbreviation cri_plot :=
  (multi_spd_colour_rendering_index_bars_plot COLOUR_STYLE_CONSTANTS
     XYZ_to_plotting_colourspace colour_rendering_index).

Lemma compute_specifications_length spds h :
  length (computed spds h).1 = length spds.
Proof.
  revert h. induction spds as [|spd spds IH]; intros h; simpl; [done|].
  destruct (colour_rendering_index spd h) as [s h'].
  specialize (IH h'). destruct (computed spds h') as [ss h'']. simpl in *.
  by rewrite IH.
Qed.

(** The store the wrapper leaves behind is the one the rescale loop made. *)
Lemma cri_plot_store spds kwargs h :
  (cri_plot spds kwargs h).2
  = rescale_specifications (computed spds h).1 (computed spds h).2.
Proof.
  unfold multi_spd_colour_rendering_index_bars_plot, override_style.
  by destruct (computed spds h).
Qed.

(** The specifications the wrapper renders are read from that store. *)
Lemma cri_plot_figure spds kwargs h :
  (cri_plot spds kwargs h).1
  = (figure ← call_colour_quality_bars_plot COLOUR_STYLE_CONSTANTS
                XYZ_to_plotting_colourspace
                (load (rescale_specifications (computed spds h).1
                                              (computed spds h).2)
                   <$> (computed spds h).1)
                (<["standalone" := VBool false]> kwargs);
     mret (render (kwargs ∪ {[ "axes" := VAxes;
                               "title" := VStr ("Colour Rendering Index - "
                                                +:+ joined_names spds) ]})
                  figure)).
Proof.
  unfold multi_spd_colour_rendering_index_bars_plot, override_style.
  by destruct (computed spds h).
Qed.

(** C3, amended: the wrapper writes the rescaled records in place into the
    list object [colorimetry_data[0]] of the specifications it obtained from
    [colour_rendering_index] (no copy is made): when it returns, every list
    of the store has been rescaled once for each specification whose
    [colorimetry_data[0]] it is; a list that is no specification's
    [colorimetry_data[0]] (a reference list [colorimetry_data[1]], any list
    the caller holds) is left as it was. *)
Theorem cri_rescale_in_place spds kwargs h (l : loc) :
  (cri_plot spds kwargs h).2 !!! l
  = Nat.iter (length (filter (λ s, test_loc s = l) (computed spds h).1))
             (fmap rescale) ((computed spds h).2 !!! l) ∧
  (l ∉ test_loc <$> (computed spds h).1 →
   (cri_plot spds kwargs h).2 !! l = (computed spds h).2 !! l).
Proof.
  rewrite cri_plot_store. split.
  - apply rescale_specifications_at.
  - apply rescale_specifications_frame.
Qed.

(** What the call [colour_quality_bars_plot(specifications, **settings)]
    draws for each specification, when it returns. *)
Lemma call_colour_quality_bars_plot_bars
    (specs : list (Specification TCS_ColourQualityScoreData
                                 TCS_ColorimetryData)) settings fig :
  call_colour_quality_bars_plot COLOUR_STYLE_CONSTANTS
    XYZ_to_plotting_colourspace specs settings = Ok fig →
  length (fig_bars fig) = length specs ∧
  ∀ j s, specs !! j = Some s →
    ∃ b, fig_bars fig !! j = Some b ∧
         bar_height b = Qabs <$> y_values s ∧
         bar_color b = bar_colours XYZ_to_plotting_colourspace s ∧
         bar_label b = name s.
Proof.
  unfold call_colour_quality_bars_plot. case_decide; [done|]. intros Hfig.
  apply colour_quality_bars_plot_spec in Hfig as (_ & _ & Hlen & Hdrawn & _).
  split; [done|]. intros j s Hs.
  destruct (Hdrawn j s Hs) as (b & Hb & _ & Hh & Hc & _ & _ & Hl & _).
  by exists b.
Qed.

(** C6: provided the specifications do not share their test data lists,
    every figure the wrapper returns was drawn from the rescaled test data:
    the list object of each specification holds every record rebuilt by
    [rescale] (name, [uv] and [UVW] carried over, [XYZ] divided by 100
    component by component), and the fills handed to [plt.bar] for that
    specification are the neutral colour followed by the conversions of
    [XYZ / 100], record by record.  (50, 100, 20) becomes (0.5, 1.0, 0.2). *)
Theorem cri_rescale_by_100 spds kwargs h fig :
  NoDup (test_loc <$> (computed spds h).1) →
  (cri_plot spds kwargs h).1 = Ok fig →
  length (fig_bars fig) = length spds ∧
  (∀ j s, (computed spds h).1 !! j = Some s →
     (cri_plot spds kwargs h).2 !!! test_loc s
     = rescale <$> ((computed spds h).2 !!! test_loc s) ∧
     ∃ b, fig_bars fig !! j = Some b ∧
          bar_label b = cri_name s ∧
          bar_color b
          = (1, 1, 1)%Q ::
              ((λ c_d : TCS_ColorimetryData,
                  clip_RGB (XYZ_to_plotting_colourspace
                              (XYZ_div (tcs_XYZ c_d) 100)))
                 <$> ((computed spds h).2 !!! test_loc s))) ∧
  (∀ c_d,
     tcs_name (rescale c_d) = tcs_name c_d ∧
     tcs_uv (rescale c_d) = tcs_uv c_d ∧
     tcs_UVW (rescale c_d) = tcs_UVW c_d ∧
     tcs_XYZ (rescale c_d)
     = ((tcs_XYZ c_d).1.1 / 100, (tcs_XYZ c_d).1.2 / 100,
        (tcs_XYZ c_d).2 / 100)%Q) ∧
  (∀ c_d, tcs_XYZ c_d = (50, 100, 20)%Q →
          XYZ_eq (tcs_XYZ (rescale c_d)) (1 # 2, 1, 1 # 5)%Q).
Proof.
  intros Hnd Hfig.
  assert (Hstore : ∀ s, s ∈ (computed spds h).1 →
            rescale_specifications (computed spds h).1 (computed spds h).2
              !!! test_loc s
            = rescale <$> ((computed spds h).2 !!! test_loc s)).
  { intros s Hs.
    by rewrite rescale_specifications_at, (filter_test_loc_NoDup _ _ Hnd Hs). }
  rewrite cri_plot_figure in Hfig.
  destruct (call_colour_quality_bars_plot _ _ _ _) as [fig0|e] eqn:Hcall;
    simpl in Hfig; [|done].
  injection Hfig as <-.
  apply call_colour_quality_bars_plot_bars in Hcall as [Hlen Hbars].
  split; [|split; [|split]].
  - simpl. by rewrite Hlen, length_fmap, compute_specifications_length.
  - intros j s Hs.
    assert (Hin : s ∈ (computed spds h).1) by (by eapply list_elem_of_lookup_2).
    split; [rewrite cri_plot_store; by apply Hstore|].
    destruct (Hbars j (load (rescale_specifications (computed spds h).1
                                                    (computed spds h).2) s))
      as (b & Hb & _ & Hc & Hl).
    { by rewrite list_lookup_fmap, Hs. }
    exists b. split; [done|]. split; [done|].
    rewrite Hc. unfold bar_colours, load. simpl. fold (test_loc s).
    rewrite (Hstore s Hin), <- list_fmap_compose. done.
  - done.
  - intros c_d Hc. unfold rescale. simpl. rewrite Hc. done.
Qed.

End CRIFacts.

(** C3, as stated, fails: the test data of the specification the wrapper
    computed for F2 holds (50, 100, 20) before the rescale loop and other
    tristimulus values when the wrapper returns; the rescale went into the
    specification's own list. *)
Lemma cri_rescale_not_on_copy :
  ∃ s,
    (compute_specifications Examples.cri [Examples.F2] ∅).1 = [s] ∧
    tcs_XYZ <$> ((compute_specifications Examples.cri [Examples.F2] ∅).2
                   !!! test_loc s) = [(50, 100, 20)%Q] ∧
    ¬ colorimetry_unchanged
        (compute_specifications Examples.cri [Examples.F2] ∅).2
        (multi_spd_colour_rendering_index_bars_plot Examples.style
           Examples.to_display Examples.cri [Examples.F2] ∅ ∅).2
        s.
Proof.
  eexists. split; [reflexivity|]. split; [vm_compute; reflexivity|].
  unfold colorimetry_unchanged. intros Hun. vm_compute in Hun.
  apply Forall2_cons_1 in Hun as [[Hx _] _]. discriminate Hx.
Qed.

(** C3, witness: the reference list of the F2 specification is the same
    before and after; its test list went from (50, 100, 20) to
    (50 / 100, 100 / 100, 20 / 100). *)
Lemma cri_rescale_in_place_witness :
  (multi_spd_colour_rendering_index_bars_plot Examples.style
     Examples.to_display Examples.cri [Examples.F2] ∅ ∅).2 !! 3%positive
  = Some [Examples.sample "TCS01" 52 99 21] ∧
  (multi_spd_colour_rendering_index_bars_plot Examples.style
     Examples.to_display Examples.cri [Examples.F2] ∅ ∅).2 !!! 2%positive
  = [rescale (Examples.sample "TCS01" 50 100 20)].
Proof.
  split.
  - rewrite (proj2 (cri_rescale_in_place Examples.style Examples.to_display
                      Examples.cri [Examples.F2] ∅ ∅ 3%positive)).
    + vm_compute. reflexivity.
    + vm_compute. intros Hin. apply list_elem_of_singleton in Hin.
      discriminate Hin.
  - rewrite (proj1 (cri_rescale_in_place Examples.style Examples.to_display
                      Examples.cri [Examples.F2] ∅ ∅ 2%positive)).
    vm_compute. reflexivity.
Defined.

(** C6, witness: the test sample of F2 goes in as (50, 100, 20) and is
    drawn with the fill of (50 / 100, 100 / 100, 20 / 100). *)
Lemma cri_rescale_by_100_witness :
  ∃ fig b c,
    (multi_spd_colour_rendering_index_bars_plot Examples.style
       Examples.to_display Examples.cri [Examples.F2] ∅ ∅).1 = Ok fig ∧
    tcs_XYZ <$> ((compute_specifications Examples.cri [Examples.F2] ∅).2
                   !!! 2%positive) = [(50, 100, 20)%Q] ∧
    fig_bars fig !! 0%nat = Some b ∧
    bar_color b
    = [(1, 1, 1)%Q;
       clip_RGB (Examples.to_display (XYZ_div (50, 100, 20)%Q 100))] ∧
    bar_color b !! 1%nat = Some c ∧
    XYZ_eq c (1 # 2, 1, 1 # 5)%Q.
Proof.
  assert (∃ fig,
    (multi_spd_colour_rendering_index_bars_plot Examples.style
       Examples.to_display Examples.cri [Examples.F2] ∅ ∅).1 = Ok fig)
    as [fig Hfig] by (eexists; reflexivity).
  assert (Hnd : NoDup (test_loc <$> (compute_specifications Examples.cri
                                       [Examples.F2] ∅).1))
    by (vm_compute; apply NoDup_singleton).
  destruct (cri_rescale_by_100 Examples.style Examples.to_display
              Examples.cri [Examples.F2] ∅ ∅ fig Hnd Hfig)
    as (_ & Hper & _).
  destruct (Hper 0%nat (Examples.cri Examples.F2 ∅).1 eq_refl)
    as (_ & b & Hb & _ & Hc).
  exists fig, b, (clip_RGB (Examples.to_display (XYZ_div (50, 100, 20)%Q 100))).
  split; [done|]. split; [vm_compute; reflexivity|]. split; [done|].
  rewrite Hc. split; [vm_compute; reflexivity|].
  split; [vm_compute; reflexivity|].
  vm_compute. repeat split; reflexivity.
Defined.

(** ** The title of the CRI chart (C8) and the single-input wrappers (C9) *)

Section CRITitle.
Variable COLOUR_STYLE_CONSTANTS : StyleConstants.
Variable XYZ_to_plotting_colourspace : XYZ_t → RGB_t.
Variable colour_rendering_index :
  SpectralPowerDistribution → heap → CRI_Specification * heap.

Local Abbreviation cri_plot :=
  (multi_spd_colour_rendering_index_bars_plot COLOUR_STYLE_CONSTANTS
     XYZ_to_plotting_colourspace colour_rendering_index).

(** C8: for a non-empty sequence of distributions, and a caller who passes
    no title of their own, every figure the CRI wrapper returns has been
    given the title ["Colour Rendering Index - "] followed by the
    distributions' names joined by [", "], in input order. *)
Theorem cri_title spds kwargs h :
  spds ≠ [] →
  kwargs !! "title" = None →
  ∀ fig, (cri_plot spds kwargs h).1 = Ok fig →
         final_settings fig !! "title"
         = Some (VStr ("Colour Rendering Index - " +:+ joined_names spds)).
Proof.
  intros Hspds Htitle fig. rewrite cri_plot_figure.
  destruct (call_colour_quality_bars_plot _ _ _ _) as [fig0|e]; simpl;
    [|done].
  intros [= <-]. unfold final_settings, render. simpl.
  rewrite last_snoc. simpl.
  rewrite lookup_union_r by done. by simplify_map_eq.
Qed.

End CRITitle.

(** C8, witness: F2 and Kinoton 75P. *)
Lemma cri_title_witness :
  ∃ fig,
    (multi_spd_colour_rendering_index_bars_plot Examples.style
       Examples.to_display Examples.cri
       [Examples.F2; Examples.Kinoton_75P] ∅ ∅).1 = Ok fig ∧
    final_settings fig !! "title"
    = Some (VStr "Colour Rendering Index - F2, Kinoton 75P").
Proof.
  eexists. split; [reflexivity|].
  refine (cri_title Examples.style Examples.to_display Examples.cri
            [Examples.F2; Examples.Kinoton_75P] ∅ ∅ _ _ _ _);
    [discriminate | reflexivity | reflexivity].
Defined.

(** C9: each single-input wrapper returns what the multi-input wrapper
    returns on the one-element sequence, for every distribution, keyword
    bag, store and collaborators. *)
Theorem single_is_multi_of_singleton
    (COLOUR_STYLE_CONSTANTS : StyleConstants)
    (XYZ_to_plotting_colourspace : XYZ_t → RGB_t)
    (spd : SpectralPowerDistribution) (kwargs : gmap string Value) :
  (∀ colour_rendering_index (h : heap),
     single_spd_colour_rendering_index_bars_plot COLOUR_STYLE_CONSTANTS
       XYZ_to_plotting_colourspace colour_rendering_index spd kwargs h
     = multi_spd_colour_rendering_index_bars_plot COLOUR_STYLE_CONSTANTS
         XYZ_to_plotting_colourspace colour_rendering_index [spd] kwargs h) ∧
  (∀ (TS TC : Type) (HQ : HasQ_a TS) (HX : HasXYZ TC)
     (colour_quality_scale : SpectralPowerDistribution → Specification TS TC),
     single_spd_colour_quality_scale_bars_plot COLOUR_STYLE_CONSTANTS
       XYZ_to_plotting_colourspace colour_quality_scale spd kwargs
     = multi_spd_colour_quality_scale_bars_plot COLOUR_STYLE_CONSTANTS
         XYZ_to_plotting_colourspace colour_quality_scale [spd] kwargs).
Proof. split; reflexivity. Qed.

(** * Further properties of the module *)

(** ** Which calls can return *)

Lemma str_repeat_ok (p : string) (n : Z) (glyph : string) :
  str_repeat p n = Ok glyph →
  (- PY_SSIZE_T_MAX - 1 ≤ n ≤ PY_SSIZE_T_MAX)%Z ∧
  ((1 ≤ n)%Z → (Z.of_nat (String.length p) ≤ PY_SSIZE_T_MAX `div` n)%Z) ∧
  glyph = str_mul p n.
Proof.
  unfold str_repeat. repeat case_decide; try done.
  intros [= <-]. repeat split; lia.
Qed.

Lemma str_mul_value_ok (p : string) (v : Value) (glyph : string) :
  str_mul_value p v = Ok glyph →
  ∃ n, repeat_count v = Some n ∧
       (- PY_SSIZE_T_MAX - 1 ≤ n ≤ PY_SSIZE_T_MAX)%Z ∧
       ((1 ≤ n)%Z → (Z.of_nat (String.length p) ≤ PY_SSIZE_T_MAX `div` n)%Z) ∧
       glyph = str_mul p n.
Proof.
  destruct v; simpl; try done; intros Hg; eexists; (split; [done|]);
    by apply str_repeat_ok.
Qed.

Section Outcome.
Context {TS TC : Type} `{HasQ_a TS} `{HasXYZ TC}.
Variable COLOUR_STYLE_CONSTANTS : StyleConstants.
Variable XYZ_to_plotting_colourspace : XYZ_t → RGB_t.

Local Abbreviation plot :=
  (colour_quality_bars_plot COLOUR_STYLE_CONSTANTS XYZ_to_plotting_colourspace).
Local Abbreviation palette := (hatch_patterns COLOUR_STYLE_CONSTANTS).

(** X1: [colour_quality_bars_plot] returns a figure only for a non-empty
    list of specifications and a non-empty hatch palette and, hatching being
    on, only for a repeat count that is an integer or a boolean within the
    index range of the interpreter, under which the first pattern of the
    palette, repeated, is no longer than [sys.maxsize]. *)
Theorem colour_quality_bars_plot_outcome (specs : list (Specification TS TC))
    labels hatching hatching_repeat kwargs fig :
  plot specs labels hatching hatching_repeat kwargs = Ok fig →
  specs ≠ [] ∧
  (∃ pattern, palette !! 0%nat = Some pattern ∧
     (truthy (resolve_hatching hatching (length specs)) = true →
      ∃ n, repeat_count hatching_repeat = Some n ∧
           (- PY_SSIZE_T_MAX - 1 ≤ n ≤ PY_SSIZE_T_MAX)%Z ∧
           ((1 ≤ n)%Z →
            (Z.of_nat (String.length pattern) ≤ PY_SSIZE_T_MAX `div` n)%Z))).
Proof.
  intros Hfig.
  apply colour_quality_bars_plot_spec in Hfig as (s_last & Hlast & _ & Hdrawn & _).
  destruct specs as [|s specs]; [done|]. split; [done|].
  destruct (Hdrawn 0%nat s eq_refl) as (b & _ & _ & _ & _ & _ & _ & _ & Hh).
  unfold hatches_for, next_pattern in Hh.
  rewrite Nat.Div0.mod_0_l in Hh.
  destruct (palette !! 0%nat) as [p|]; [|done]. simpl in Hh.
  exists p. split; [done|]. intros Ht. simpl in Ht. rewrite Ht in Hh.
  destruct (str_mul_value p hatching_repeat) as [g|e] eqn:Hg; [|done].
  apply str_mul_value_ok in Hg as (n & Hn & Hr & Hl & _).
  by exists n.
Qed.

End Outcome.

(** ** The drawing calls around the bars *)

Section Drawing.
Context {TS TC : Type} `{HasQ_a TS} `{HasXYZ TC}.
Variable COLOUR_STYLE_CONSTANTS : StyleConstants.
Variable XYZ_to_plotting_colourspace : XYZ_t → RGB_t.

Local Abbreviation plot :=
  (colour_quality_bars_plot COLOUR_STYLE_CONSTANTS XYZ_to_plotting_colourspace).
Local Abbreviation loop :=
  (plot_specifications COLOUR_STYLE_CONSTANTS XYZ_to_plotting_colourspace).
Local Abbreviation loop_body :=
  (plot_specification COLOUR_STYLE_CONSTANTS XYZ_to_plotting_colourspace).

Lemma plot_specification_labels labels hatching hatching_repeat count_s i
    (s : Specification TS TC) st st' :
  loop_body labels hatching hatching_repeat count_s i s st = Ok st' →
  ∃ new,
    fig_labels (ls_figure st') = fig_labels (ls_figure st) ++ new ∧
    (truthy labels = false → new = []) ∧
    (truthy labels = true →
     ∃ c, new = [c] ∧
          labelled_from count_s (length (fig_bars (ls_figure st))) s c).
Proof.
  unfold plot_specification.
  destruct (hatches_for _ _ _ _ _ _) as [[hs pos']|e]; simpl; [|done].
  intros [= <-]. simpl.
  destruct (truthy labels); simpl.
  - eexists. split; [done|]. split; [done|]. intros _.
    eexists. split; [done|].
    repeat split; simpl; try done. field.
  - exists []. rewrite app_nil_r. split; [done|]. split; done.
Qed.

Lemma plot_specifications_labels labels hatching hatching_repeat count_s :
  ∀ (specs : list (Specification TS TC)) i st st',
    loop labels hatching hatching_repeat count_s i specs st = Ok st' →
    ∃ new,
      fig_labels (ls_figure st') = fig_labels (ls_figure st) ++ new ∧
      (truthy labels = false → new = []) ∧
      (truthy labels = true →
       length new = length specs ∧
       ∀ j s, specs !! j = Some s →
         ∃ c, new !! j = Some c ∧
              labelled_from count_s
                (length (fig_bars (ls_figure st)) + j) s c).
Proof.
  induction specs as [|s specs IH]; intros i st st'; simpl.
  - intros [= <-]. exists []. rewrite app_nil_r.
    repeat split; done.
  - destruct (loop_body _ _ _ _ _ _ _) as [st1|e] eqn:H1; simpl; [|done].
    intros H2.
    pose proof (plot_specification_spec _ _ _ _ _ _ _ _ _ _ H1)
      as (b & _ & Hbars & _).
    apply plot_specification_labels in H1 as (new1 & Hl1 & Hoff1 & Hon1).
    apply IH in H2 as (new & Hl & Hoff & Hon).
    exists (new1 ++ new). split; [by rewrite Hl, Hl1, <- app_assoc|].
    split.
    + intros Hf. by rewrite (Hoff1 Hf), (Hoff Hf).
    + intros Ht. destruct (Hon1 Ht) as (c & -> & Hc).
      destruct (Hon Ht) as [Hlen Hnew]. split; [simpl; by rewrite Hlen|].
      intros [|j] s' Hs'; simpl in *.
      * injection Hs' as <-. exists c. split; [done|].
        by rewrite Nat.add_0_r.
      * destruct (Hnew j s' Hs') as (c' & Hc' & Hlab). exists c'.
        split; [done|]. rewrite Hbars, length_app in Hlab. simpl in Hlab.
        by replace (length (fig_bars (ls_figure st)) + Datatypes.S j)%nat
             with (length (fig_bars (ls_figure st)) + 1 + j)%nat by lia.
Qed.

(** What [artist] and [render] are called with. *)
Lemma colour_quality_bars_plot_settings (specs : list (Specification TS TC))
    labels hatching hatching_repeat kwargs fig :
  plot specs labels hatching hatching_repeat kwargs = Ok fig →
  ∃ s_last,
    last specs = Some s_last ∧
    fig_artist fig = kwargs ∪ {[ "uniform" := VBool true ]} ∧
    fig_renders fig
    = [kwargs ∪
       {[ "axes" := VAxes;
          "aspect" :=
            VFloat (1 / (120 / (bar_width
                                + inject_Z (Z.of_nat (size (Q_as s_last)))
                                + bar_width * 2)))%Q;
          "bounding_box" :=
            VTuple4 (- bar_width)
                    (inject_Z ((Z.of_nat (size (Q_as s_last)) + 1)
                               * (Z.of_nat (length specs) + 1)) / 2)%Q
                    0 120;
          "legend" := resolve_hatching hatching (length specs);
          "title" := VStr "Colour Quality" ]}].
Proof.
  unfold colour_quality_bars_plot, override_style.
  destruct (loop _ _ _ _ _ _ _) as [st|e] eqn:Hloop; simpl; [|done].
  apply plot_specifications_spec in Hloop
    as (new & _ & _ & _ & Hlast & Ha & _ & Hr).
  simpl in *.
  destruct (ls_Q_as st) as [Q|] eqn:HQ; [|done].
  intros [= <-]. simpl.
  destruct (last specs) as [s_last|] eqn:Hl; [|done].
  injection Hlast as -> ->.
  exists s_last. split; [done|]. split; [done|]. by rewrite Hr.
Qed.

Lemma colour_quality_bars_plot_labels (specs : list (Specification TS TC))
    labels hatching hatching_repeat kwargs fig :
  plot specs labels hatching hatching_repeat kwargs = Ok fig →
  (truthy labels = false → fig_labels fig = []) ∧
  (truthy labels = true →
   length (fig_labels fig) = length specs ∧
   ∀ j s, specs !! j = Some s →
     ∃ c, fig_labels fig !! j = Some c ∧
          labelled_from (length specs) j s c).
Proof.
  unfold colour_quality_bars_plot, override_style.
  destruct (loop _ _ _ _ _ _ _) as [st|e] eqn:Hloop; simpl; [|done].
  apply plot_specifications_labels in Hloop as (new & Hl & Hoff & Hon).
  simpl in *.
  destruct (ls_Q_as st) as [Q|] eqn:HQ; [|done].
  intros [= <-]. simpl. rewrite Hl. split; [done|].
  intros Ht. by apply Hon.
Qed.

End Drawing.

(** ** Geometry of the bars and of the view *)

Lemma bar_positions_lookup (i count_Q_as count_s k : nat) (x : Q) :
  bar_positions i count_Q_as count_s !! k = Some x →
  (k ≤ count_Q_as)%nat ∧
  (x == inject_Z (bar_slot count_s i k) * bar_width)%Q.
Proof.
  rewrite bar_positions_eq, list_lookup_fmap.
  destruct (seq _ _ !! k) as [k'|] eqn:Hk; simpl; [|done].
  apply lookup_seq in Hk as [-> Hlt]. intros [= <-].
  split; [lia|]. unfold bar_slot. simpl. by rewrite inject_Z_plus.
Qed.

Lemma slot_gap (m m' : Z) :
  (m + 1 ≤ m')%Z →
  (inject_Z m * bar_width + bar_width <= inject_Z m' * bar_width)%Q.
Proof.
  intros Hm. rewrite Zle_Qle, inject_Z_plus in Hm.
  change (inject_Z 1) with 1%Q in Hm. unfold bar_width. lra.
Qed.

Lemma bar_slot_inj (count_s i i' k k' : nat) :
  (i < count_s)%nat → (i' < count_s)%nat →
  bar_slot count_s i k = bar_slot count_s i' k' → i = i' ∧ k = k'.
Proof.
  unfold bar_slot. intros Hi Hi' Heq.
  assert (k = k') as -> by nia. split; [lia|done].
Qed.

Lemma xtick_positions_lookup (count_Q_as count_s k : nat) (t : Q) :
  xtick_positions count_Q_as count_s !! k = Some t →
  (k ≤ count_Q_as)%nat ∧
  t = (inject_Z (Z.of_nat k * (Z.of_nat count_s + 1)) * bar_width
       + inject_Z (Z.of_nat count_s) * bar_width / 2)%Q.
Proof.
  unfold xtick_positions. rewrite group_offsets_eq, <- list_fmap_compose,
    list_lookup_fmap.
  destruct (seq _ _ !! k) as [k'|] eqn:Hk; simpl; [|done].
  apply lookup_seq in Hk as [-> Hlt]. intros [= <-]. split; [lia|done].
Qed.

Lemma group_of_tick (k count_s : nat) :
  group_of count_s
    (inject_Z (Z.of_nat k * (Z.of_nat count_s + 1)) * bar_width
     + inject_Z (Z.of_nat count_s) * bar_width / 2)%Q
  = Z.of_nat k.
Proof.
  unfold group_of.
  set (c := (Z.of_nat count_s + 1)%Z).
  assert (Hc : (0 < c)%Z) by (unfold c; lia).
  assert (Heq : ((inject_Z (Z.of_nat k * c) * bar_width
                  + inject_Z (Z.of_nat count_s) * bar_width / 2)
                 / (inject_Z c * bar_width)
                 == (Z.of_nat count_s + Z.of_nat k * (2 * c))
                      # (Z.to_pos (2 * c)))%Q).
  { unfold bar_width, Qeq, Qdiv, Qmult, Qplus, Qinv, inject_Z. simpl.
    destruct c as [|p|p] eqn:Ec; try lia. simpl. lia. }
  rewrite Heq. unfold Qfloor. rewrite Z2Pos.id by lia.
  rewrite Z.div_add by lia. rewrite Z.div_small by (unfold c; lia). lia.
Qed.

Section FigureFacts.
Context {TS TC : Type} `{HasQ_a TS} `{HasXYZ TC}.
Variable COLOUR_STYLE_CONSTANTS : StyleConstants.
Variable XYZ_to_plotting_colourspace : XYZ_t → RGB_t.

Local Abbreviation plot :=
  (colour_quality_bars_plot COLOUR_STYLE_CONSTANTS XYZ_to_plotting_colourspace).
Local Abbreviation palette := (hatch_patterns COLOUR_STYLE_CONSTANTS).

(** X2: whatever the input, a figure that is returned carries one
    horizontal reference line, at 100, dashed and in the dark colour of the
    style, and the y ticks 0, 10, ..., 100. *)
Theorem reference_line_and_yticks (specs : list (Specification TS TC))
    labels hatching hatching_repeat kwargs fig :
  plot specs labels hatching hatching_repeat kwargs = Ok fig →
  fig_hlines fig = [(100%Q, colour_dark COLOUR_STYLE_CONSTANTS, "--")] ∧
  fig_yticks fig
  = Some [0; 10; 20; 30; 40; 50; 60; 70; 80; 90; 100]%Z.
Proof.
  intros Hfig.
  apply colour_quality_bars_plot_spec in Hfig
    as (_ & _ & _ & _ & _ & Hy & Hh & _).
  split; [done|]. by rewrite Hy.
Qed.

(** X4: the hatch patterns cycle through the palette, one per
    specification: the container of specification [j] uses the pattern at
    index [j mod len(palette)].  With hatching on, every bar of the
    container carries that pattern multiplied by [hatching_repeat]; with
    hatching off, the bars with a negative score carry the pattern itself
    and the others [None]. *)
Theorem hatch_pattern_cycle (specs : list (Specification TS TC))
    labels hatching hatching_repeat kwargs fig j s :
  plot specs labels hatching hatching_repeat kwargs = Ok fig →
  specs !! j = Some s →
  ∃ b pattern,
    fig_bars fig !! j = Some b ∧
    palette !! (j `mod` length palette)%nat = Some pattern ∧
    if truthy (resolve_hatching hatching (length specs))
    then ∃ glyph, str_mul_value pattern hatching_repeat = Ok glyph ∧
                  bar_hatches b = replicate (size (Q_as s) + 1) (Some glyph)
    else bar_hatches b = negative_hatches pattern (y_values s).
Proof.
  intros Hfig Hs.
  apply colour_quality_bars_plot_spec in Hfig as (_ & _ & _ & Hdrawn & _).
  destruct (Hdrawn j s Hs) as (b & Hb & _ & _ & _ & _ & _ & _ & Hh).
  unfold hatches_for, next_pattern in Hh.
  destruct (palette !! _) as [p|] eqn:Hp; simpl in Hh; [|done].
  exists b, p. split; [done|]. split; [done|].
  destruct (truthy _); simpl in Hh.
  - destruct (str_mul_value p hatching_repeat) as [g|e]; simpl in Hh; [|done].
    injection Hh as <-. by exists g.
  - by injection Hh as <-.
Qed.

(** X5: in every bar container the positions, the heights and the hatches
    are [len(Q_as) + 1] each, so that the loop over the patches finds a
    hatch for every bar; the colours are one more than the test samples of
    [colorimetry_data[0]]. *)
Theorem bar_container_lengths (specs : list (Specification TS TC))
    labels hatching hatching_repeat kwargs fig j s :
  plot specs labels hatching hatching_repeat kwargs = Ok fig →
  specs !! j = Some s →
  ∃ b, fig_bars fig !! j = Some b ∧
       length (bar_x b) = Datatypes.S (size (Q_as s)) ∧
       length (bar_height b) = Datatypes.S (size (Q_as s)) ∧
       length (bar_hatches b) = Datatypes.S (size (Q_as s)) ∧
       length (bar_color b)
       = Datatypes.S (length (colorimetry_data s).1).
Proof.
  intros Hfig Hs.
  apply colour_quality_bars_plot_spec in Hfig as (_ & _ & _ & Hdrawn & _).
  destruct (Hdrawn j s Hs) as (b & Hb & Hx & Hh & Hc & _ & _ & _ & Hhat).
  exists b. split; [done|].
  rewrite Hx, Hh, Hc, bar_positions_length, length_fmap, y_values_length.
  repeat split; try done.
  - destruct (truthy (resolve_hatching hatching (length specs))) eqn:Ht.
    + apply hatches_for_enabled in Hhat as [g ->]; [|done].
      rewrite length_replicate. lia.
    + apply hatches_for_disabled in Hhat as [p ->]; [|done].
      unfold negative_hatches. by rewrite length_fmap, y_values_length.
  - unfold bar_colours. simpl. by rewrite length_fmap.
Qed.

(** X6: no two bars of a figure overlap: two different bars, of the same
    or of different containers, lie at least one bar width apart. *)
Theorem bars_do_not_overlap (specs : list (Specification TS TC))
    labels hatching hatching_repeat kwargs fig j j' b b' k k' x x' :
  plot specs labels hatching hatching_repeat kwargs = Ok fig →
  fig_bars fig !! j = Some b →
  fig_bars fig !! j' = Some b' →
  bar_x b !! k = Some x →
  bar_x b' !! k' = Some x' →
  (j, k) ≠ (j', k') →
  (x + bar_width <= x')%Q ∨ (x' + bar_width <= x)%Q.
Proof.
  intros Hfig Hb Hb' Hx Hx' Hne.
  apply colour_quality_bars_plot_spec in Hfig as (_ & _ & Hlen & Hdrawn & _).
  assert (Hj : (j < length specs)%nat)
    by (rewrite <- Hlen; by eapply lookup_lt_Some).
  assert (Hj' : (j' < length specs)%nat)
    by (rewrite <- Hlen; by eapply lookup_lt_Some).
  destruct (lookup_lt_is_Some_2 specs j Hj) as [s Hs].
  destruct (lookup_lt_is_Some_2 specs j' Hj') as [s' Hs'].
  destruct (Hdrawn j s Hs) as (b0 & Hb0 & Hbx & _).
  destruct (Hdrawn j' s' Hs') as (b0' & Hb0' & Hbx' & _).
  assert (b0 = b) as -> by congruence.
  assert (b0' = b') as -> by congruence.
  rewrite Hbx in Hx. rewrite Hbx' in Hx'.
  apply bar_positions_lookup in Hx as [_ Hx].
  apply bar_positions_lookup in Hx' as [_ Hx'].
  rewrite Hx, Hx'.
  destruct (Z.lt_trichotomy (bar_slot (length specs) j k)
                            (bar_slot (length specs) j' k'))
    as [Hlt|[Heq|Hgt]].
  - left. apply slot_gap. lia.
  - apply bar_slot_inj in Heq as [-> ->]; done.
  - right. apply slot_gap. lia.
Qed.

(** X7: every x tick lies in the bar group it stands for, and there it is
    the midpoint between the position of the group's first bar and the
    position one bar width after its last bar. *)
Theorem xticks_centred_in_groups (specs : list (Specification TS TC))
    labels hatching hatching_repeat kwargs fig ticks tick_labels k t :
  plot specs labels hatching hatching_repeat kwargs = Ok fig →
  fig_xticks fig = Some (ticks, tick_labels) →
  ticks !! k = Some t →
  group_of (length specs) t = Z.of_nat k ∧
  (t == (inject_Z (bar_slot (length specs) 0 k) * bar_width
         + (inject_Z (bar_slot (length specs) (length specs - 1) k)
            * bar_width + bar_width)) / 2)%Q.
Proof.
  intros Hfig Hticks Hk.
  apply colour_quality_bars_plot_spec in Hfig
    as (s_last & Hlast & _ & _ & Hx & _).
  rewrite Hx in Hticks. injection Hticks as <- <-.
  apply xtick_positions_lookup in Hk as [_ ->].
  split; [apply group_of_tick|].
  assert (Hs : (1 ≤ length specs)%nat).
  { destruct specs; [done|simpl; lia]. }
  unfold bar_slot.
  replace (Z.of_nat (length specs - 1)) with (Z.of_nat (length specs) - 1)%Z
    by lia.
  unfold Z.sub.
  rewrite !inject_Z_plus, !inject_Z_mult, !inject_Z_plus.
  change (inject_Z (Z.opp 1)) with (Qopp 1).
  change (inject_Z 1) with 1%Q. change (inject_Z (Z.of_nat 0)) with 0%Q.
  unfold bar_width. field.
Qed.

End FigureFacts.

(** ** Labels, keyword arguments and the view *)

Lemma text_size_positive (count_s : nat) :
  (0 < 125 / 10 - 5 / 7 * inject_Z (Z.of_nat count_s))%Q
  ↔ (count_s ≤ 17)%nat.
Proof.
  assert (Heq : (125 / 10 - 5 / 7 * inject_Z (Z.of_nat count_s)
                 == (25 # 2) - (5 # 7) * inject_Z (Z.of_nat count_s))%Q)
    by field.
  rewrite Heq. split.
  - intros Hpos. destruct (decide (count_s ≤ 17)%nat) as [|Hgt]; [done|].
    assert (Hz : (18 ≤ Z.of_nat count_s)%Z) by lia.
    rewrite Zle_Qle in Hz. change (inject_Z 18) with 18%Q in Hz. lra.
  - intros Hle. assert (Hz : (Z.of_nat count_s ≤ 17)%Z) by lia.
    rewrite Zle_Qle in Hz. change (inject_Z 17) with 17%Q in Hz. lra.
Qed.

Lemma slot_bound (m d M : Z) :
  (m + d ≤ M)%Z →
  (inject_Z m * bar_width + inject_Z d * bar_width
   <= inject_Z M * bar_width)%Q.
Proof.
  intros Hm. rewrite Zle_Qle, inject_Z_plus in Hm. unfold bar_width. lra.
Qed.

Section Settings.
Context {TS TC : Type} `{HasQ_a TS} `{HasXYZ TC}.
Variable COLOUR_STYLE_CONSTANTS : StyleConstants.
Variable XYZ_to_plotting_colourspace : XYZ_t → RGB_t.

Local Abbreviation plot :=
  (colour_quality_bars_plot COLOUR_STYLE_CONSTANTS XYZ_to_plotting_colourspace).

(** X8: with [labels] false no label call is made; with [labels] true
    there is one call per specification, in order, which refers to that
    specification's bar container and is given the scores with their sign
    (the bars themselves show absolute values), horizontally for a single
    specification and vertically otherwise.  The text size
    [-5 / 7 * count_s + 12.5] is positive up to 17 specifications and not
    beyond. *)
Theorem labels_follow_specifications (specs : list (Specification TS TC))
    labels hatching hatching_repeat kwargs fig :
  plot specs labels hatching hatching_repeat kwargs = Ok fig →
  (truthy labels = false → fig_labels fig = []) ∧
  (truthy labels = true →
   length (fig_labels fig) = length specs ∧
   ∀ j s, specs !! j = Some s →
     ∃ c, fig_labels fig !! j = Some c ∧
          labelled_from (length specs) j s c ∧
          ((0 < lc_text_size c)%Q ↔ (length specs ≤ 17)%nat)).
Proof.
  intros Hfig.
  apply colour_quality_bars_plot_labels in Hfig as [Hoff Hon].
  split; [done|]. intros Ht. destruct (Hon Ht) as [Hlen Hcalls].
  split; [done|]. intros j s Hs.
  destruct (Hcalls j s Hs) as (c & Hc & Hlab). exists c.
  split; [done|]. split; [done|].
  destruct Hlab as (_ & _ & _ & _ & _ & Hsize).
  rewrite Hsize. apply text_size_positive.
Qed.

(** X9: a keyword the caller passes reaches both [artist] and [render]
    with the caller's value, whatever the function would have put there
    itself ([uniform], [axes], [aspect], [bounding_box], [legend],
    [title]); a keyword the caller does not pass reaches [render] with the
    function's value or not at all. *)
Theorem caller_keywords_win (specs : list (Specification TS TC))
    labels hatching hatching_repeat kwargs fig key :
  plot specs labels hatching hatching_repeat kwargs = Ok fig →
  match kwargs !! key with
  | Some v =>
      fig_artist fig !! key = Some v ∧ final_settings fig !! key = Some v
  | None =>
      fig_artist fig !! key
      = (if decide (key = "uniform") then Some (VBool true) else None) ∧
      (key ∉ ["axes"; "aspect"; "bounding_box"; "legend"; "title"] →
       final_settings fig !! key = None)
  end.
Proof.
  intros Hfig.
  apply colour_quality_bars_plot_settings in Hfig
    as (s_last & _ & Ha & Hr).
  unfold final_settings. rewrite Ha, Hr. simpl.
  destruct (kwargs !! key) as [v|] eqn:Hk.
  - split; by apply lookup_union_Some_l.
  - rewrite !lookup_union_r by done. split.
    + case_decide as Hu; [subst; by rewrite lookup_singleton_eq|].
      by rewrite lookup_singleton_ne.
    + intros Hnot. rewrite !not_elem_of_cons in Hnot.
      destruct Hnot as (? & ? & ? & ? & ? & _).
      rewrite !lookup_insert_ne by done. by rewrite lookup_singleton_ne.
Qed.

(** X10: unless the caller passes a bounding box, the view runs from one
    bar width left of 0 to [(count_Q_as + 1) * (count_s + 1) / 2] on the x
    axis and from 0 to 120 on the y axis, [count_Q_as] being the number of
    samples of the last specification.  Of the positions [x] handed to
    [plt.bar], none is left of 0; that of a bar of a specification with at
    most that many samples is at least two bar widths before the right
    bound; that of the last bar of a specification with more samples is at
    or beyond the right bound.  (Where a bar of width 1/2 lies around its
    position is matplotlib's choice of alignment.) *)
Theorem bounding_box_follows_last_specification
    (specs : list (Specification TS TC))
    labels hatching hatching_repeat kwargs fig :
  plot specs labels hatching hatching_repeat kwargs = Ok fig →
  kwargs !! "bounding_box" = None →
  ∃ s_last x_max,
    last specs = Some s_last ∧
    final_settings fig !! "bounding_box"
    = Some (VTuple4 (- bar_width) x_max 0 120) ∧
    (x_max == inject_Z ((Z.of_nat (size (Q_as s_last)) + 1)
                        * (Z.of_nat (length specs) + 1)) * bar_width)%Q ∧
    ∀ j s, specs !! j = Some s →
      ∃ b, fig_bars fig !! j = Some b ∧
        (∀ k x, bar_x b !! k = Some x →
           (0 <= x)%Q ∧
           ((size (Q_as s) ≤ size (Q_as s_last))%nat →
            (x + bar_width + bar_width <= x_max)%Q)) ∧
        ((size (Q_as s_last) < size (Q_as s))%nat →
         ∃ x, bar_x b !! size (Q_as s) = Some x ∧ (x_max <= x)%Q).
Proof.
  intros Hfig Hk.
  pose proof (colour_quality_bars_plot_settings _ _ _ _ _ _ _ _ Hfig)
    as (s_last & Hlast & _ & Hr).
  apply colour_quality_bars_plot_spec in Hfig as (_ & _ & Hlen & Hdrawn & _).
  eexists s_last, _. split; [done|]. split.
  { unfold final_settings. rewrite Hr. simpl.
    rewrite lookup_union_r by done. by simplify_map_eq. }
  set (M := ((Z.of_nat (size (Q_as s_last)) + 1)
             * (Z.of_nat (length specs) + 1))%Z).
  assert (Hmax : (inject_Z M / 2 == inject_Z M * bar_width)%Q)
    by (unfold bar_width; field).
  split; [done|].
  intros j s Hs. destruct (Hdrawn j s Hs) as (b & Hb & Hx & _).
  assert (Hj : (j < length specs)%nat) by (by eapply lookup_lt_Some).
  exists b. split; [done|]. rewrite Hx. split.
  - intros k x Hkx. apply bar_positions_lookup in Hkx as [Hkn Hxv].
    rewrite Hxv, Hmax. split.
    + apply Qmult_le_0_compat; [|done].
      change 0%Q with (inject_Z 0). rewrite <- Zle_Qle. unfold bar_slot. lia.
    + intros Hn.
      pose proof (slot_bound (bar_slot (length specs) j k) 2 M) as Hb2.
      change (inject_Z 2) with 2%Q in Hb2. unfold bar_width in *.
      assert (Hle : (bar_slot (length specs) j k + 2 ≤ M)%Z)
        by (unfold bar_slot, M; nia).
      specialize (Hb2 Hle). lra.
  - intros Hn.
    destruct (lookup_lt_is_Some_2
                (bar_positions j (size (Q_as s)) (length specs))
                (size (Q_as s))) as [x Hxl];
      [rewrite bar_positions_length; lia|].
    exists x. split; [done|].
    apply bar_positions_lookup in Hxl as [_ Hxv]. rewrite Hxv, Hmax.
    apply Qmult_le_compat_r; [|done].
    rewrite <- Zle_Qle. unfold bar_slot, M. nia.
Qed.

End Settings.

(** ** The wrappers: render calls, titles, errors *)

Lemma hatches_for_palette (COLOUR_STYLE_CONSTANTS : StyleConstants)
    hatching hatching_repeat n y pos r :
  hatches_for COLOUR_STYLE_CONSTANTS hatching hatching_repeat n y pos = Ok r →
  ∃ pattern,
    hatch_patterns COLOUR_STYLE_CONSTANTS
      !! (pos `mod` length (hatch_patterns COLOUR_STYLE_CONSTANTS))%nat
    = Some pattern.
Proof.
  unfold hatches_for, next_pattern.
  destruct (hatch_patterns COLOUR_STYLE_CONSTANTS !! _) as [p|]; [|done].
  intros _. by exists p.
Qed.

Section InnerCall.
Context {TS TC : Type} `{HasQ_a TS} `{HasXYZ TC}.
Variable COLOUR_STYLE_CONSTANTS : StyleConstants.
Variable XYZ_to_plotting_colourspace : XYZ_t → RGB_t.

Local Abbreviation call :=
  (call_colour_quality_bars_plot COLOUR_STYLE_CONSTANTS
     XYZ_to_plotting_colourspace).

(** The call the wrappers make, with [standalone] forced to [False]. *)
Lemma inner_call_spec (specs : list (Specification TS TC)) kwargs fig :
  call specs (<["standalone" := VBool false]> kwargs) = Ok fig →
  kwargs !! "specifications" = None ∧
  length (fig_bars fig) = length specs ∧
  ∃ inner, fig_renders fig = [inner] ∧
           inner !! "standalone" = Some (VBool false).
Proof.
  unfold call_colour_quality_bars_plot. case_decide as Hdup; [done|].
  intros Hfig. split.
  { rewrite lookup_insert_ne in Hdup by done.
    destruct (kwargs !! "specifications"); [|done].
    exfalso. apply Hdup. by eexists. }
  pose proof (colour_quality_bars_plot_settings _ _ _ _ _ _ _ _ Hfig)
    as (s_last & _ & _ & Hr).
  apply colour_quality_bars_plot_spec in Hfig as (_ & _ & Hlen & _).
  split; [done|]. eexists. split; [exact Hr|].
  apply lookup_union_Some_l.
  rewrite !lookup_delete_ne by done. apply lookup_insert_eq.
Qed.

Lemma inner_call_keyword_clash (specs : list (Specification TS TC)) kwargs :
  is_Some (kwargs !! "specifications") →
  call specs (<["standalone" := VBool false]> kwargs)
  = Raise (TypeError "got multiple values for argument 'specifications'").
Proof.
  intros Hk. unfold call_colour_quality_bars_plot.
  rewrite decide_True; [done|]. by rewrite lookup_insert_ne.
Qed.

End InnerCall.

Lemma iter_fmap_rescale (n : nat) (cds : list TCS_ColorimetryData) :
  Nat.iter n (fmap rescale) cds = Nat.iter n rescale <$> cds.
Proof.
  induction n as [|n IH]; simpl.
  - by rewrite list_fmap_id.
  - by rewrite IH, <- list_fmap_compose.
Qed.

Lemma iter_rescale_keeps (n : nat) (c_d : TCS_ColorimetryData) :
  tcs_name (Nat.iter n rescale c_d) = tcs_name c_d ∧
  tcs_uv (Nat.iter n rescale c_d) = tcs_uv c_d ∧
  tcs_UVW (Nat.iter n rescale c_d) = tcs_UVW c_d.
Proof. induction n as [|n IH]; simpl; [done|]. apply IH. Qed.

Lemma rescale_items_dom (l : loc) (indices : list nat) (h : heap) :
  dom (rescale_items l indices h) = dom h.
Proof.
  revert h. induction indices as [|i indices IH]; intros h; simpl; [done|].
  destruct ((h !!! l) !! i) as [c_d|] eqn:Hi; [|done].
  rewrite IH, dom_insert_L.
  assert (l ∈ dom h) as Hl;
    [|by apply subseteq_union_1_L, singleton_subseteq_l].
  apply elem_of_dom. rewrite lookup_total_alt in Hi.
  destruct (h !! l); [by eexists|done].
Qed.

Lemma rescale_specifications_dom (specs : list CRI_Specification) :
  ∀ h : heap, dom (rescale_specifications specs h) = dom h.
Proof.
  unfold rescale_specifications.
  induction specs as [|s specs IH]; intros h; simpl; [done|].
  rewrite IH. apply rescale_items_dom.
Qed.

Section CRIWrapper.
Variable COLOUR_STYLE_CONSTANTS : StyleConstants.
Variable XYZ_to_plotting_colourspace : XYZ_t → RGB_t.
Variable colour_rendering_index :
  SpectralPowerDistribution → heap → CRI_Specification * heap.

Local Abbreviation computed := (compute_specifications colour_rendering_index).
Local Abbreviation cri_plot :=
  (multi_spd_colour_rendering_index_bars_plot COLOUR_STYLE_CONSTANTS
     XYZ_to_plotting_colourspace colour_rendering_index).
Local Abbreviation cri_plot_single :=
  (single_spd_colour_rendering_index_bars_plot COLOUR_STYLE_CONSTANTS
     XYZ_to_plotting_colourspace colour_rendering_index).

(** X11: a figure returned by the CRI wrapper has been rendered exactly
    twice and holds one bar container per distribution.  The first render,
    inside [colour_quality_bars_plot], is always given [standalone=False],
    also when the caller passes [standalone=True]; the second is given the
    caller's keywords over [axes] and the computed [title], and
    [standalone] only if the caller passed it.  A title passed by the
    caller replaces the computed one. *)
Theorem cri_renders_twice spds kwargs h fig :
  (cri_plot spds kwargs h).1 = Ok fig →
  length (fig_bars fig) = length spds ∧
  (∃ inner,
     fig_renders fig
     = [inner;
        kwargs ∪ {[ "axes" := VAxes;
                    "title" := VStr ("Colour Rendering Index - "
                                     +:+ joined_names spds) ]}] ∧
     inner !! "standalone" = Some (VBool false)) ∧
  final_settings fig !! "standalone" = kwargs !! "standalone" ∧
  (∀ v, kwargs !! "title" = Some v → final_settings fig !! "title" = Some v).
Proof.
  rewrite cri_plot_figure.
  destruct (call_colour_quality_bars_plot _ _ _ _) as [fig0|e] eqn:Hcall;
    simpl; [|done].
  intros [= <-].
  apply inner_call_spec in Hcall as (_ & Hlen & inner & Hr & Hst).
  unfold final_settings, render. simpl. rewrite Hr. simpl.
  split; [by rewrite Hlen, length_fmap, compute_specifications_length|].
  split; [by exists inner|]. split.
  - destruct (kwargs !! "standalone") as [v|] eqn:Hk.
    + by apply lookup_union_Some_l.
    + rewrite lookup_union_r by done. by simplify_map_eq.
  - intros v Hv. by apply lookup_union_Some_l.
Qed.

(** X13: the rescale loop keeps the shape of the store: when the CRI
    wrapper returns or raises, the store holds the same list objects as
    after the specifications were computed, every list has its length, and
    every record its name, [uv] and [UVW]; only [XYZ] has changed, and only
    in lists that are some specification's [colorimetry_data[0]]. *)
Theorem cri_rescale_keeps_shape spds kwargs h (l : loc) :
  dom (multi_spd_colour_rendering_index_bars_plot COLOUR_STYLE_CONSTANTS
         XYZ_to_plotting_colourspace colour_rendering_index spds kwargs h).2
  = dom (compute_specifications colour_rendering_index spds h).2 ∧
  length ((cri_plot spds kwargs h).2 !!! l)
  = length ((computed spds h).2 !!! l) ∧
  tcs_name <$> ((cri_plot spds kwargs h).2 !!! l)
  = tcs_name <$> ((computed spds h).2 !!! l) ∧
  tcs_uv <$> ((cri_plot spds kwargs h).2 !!! l)
  = tcs_uv <$> ((computed spds h).2 !!! l) ∧
  tcs_UVW <$> ((cri_plot spds kwargs h).2 !!! l)
  = tcs_UVW <$> ((computed spds h).2 !!! l).
Proof.
  rewrite cri_plot_store. split; [apply rescale_specifications_dom|].
  rewrite rescale_specifications_at, iter_fmap_rescale.
  rewrite length_fmap, <- !list_fmap_compose.
  split; [done|].
  repeat split; apply list_fmap_ext; intros _ c_d _; simpl;
    apply iter_rescale_keeps.
Qed.

(** X14: with no distribution at all the CRI wrapper returns no figure and
    leaves the store as it found it; with a keyword called [specifications]
    it raises [TypeError] (the keyword names the first parameter of
    [colour_quality_bars_plot] a second time), whatever the distributions,
    after the rescale loop has run. *)
Theorem cri_wrapper_errors spds kwargs h :
  ((∀ fig, (cri_plot [] kwargs h).1 ≠ Ok fig) ∧
   (cri_plot [] kwargs h).2 = h) ∧
  (is_Some (kwargs !! "specifications") →
   cri_plot spds kwargs h
   = (Raise (TypeError "got multiple values for argument 'specifications'"),
      rescale_specifications (computed spds h).1 (computed spds h).2)).
Proof.
  split; [split|].
  - intros fig. rewrite cri_plot_figure. simpl.
    unfold call_colour_quality_bars_plot. case_decide; simpl; done.
  - by rewrite cri_plot_store.
  - intros Hk. apply injective_projections.
    + rewrite cri_plot_figure. by rewrite inner_call_keyword_clash.
    + apply cri_plot_store.
Qed.

(** X15: a figure the single-input CRI wrapper returns, when it is called
    without a [hatching] keyword (and without a keyword [spds], which the
    call of the multi-input wrapper would not accept), holds one bar
    container, drawn for the one specification computed: labelled with its
    name, as high as its absolute scores, hatched with the first pattern of
    the palette on the bars of its negative scores only.  No legend is asked
    for and the chart is titled with the name of the distribution (unless
    the caller passes a legend or a title). *)
Theorem single_cri_plot_is_unhatched spd kwargs h fig :
  (cri_plot_single spd kwargs h).1 = Ok fig →
  kwargs !! "spds" = None →
  kwargs !! "hatching" = None →
  ∃ s b pattern,
    (computed [spd] h).1 = [s] ∧
    fig_bars fig = [b] ∧
    bar_label b = cri_name s ∧
    bar_height b
    = Qabs <$> y_values (load (cri_plot_single spd kwargs h).2 s) ∧
    hatch_patterns COLOUR_STYLE_CONSTANTS !! 0%nat = Some pattern ∧
    bar_hatches b
    = negative_hatches pattern
        (y_values (load (cri_plot_single spd kwargs h).2 s)) ∧
    (kwargs !! "legend" = None →
     ∃ inner rest, fig_renders fig = inner :: rest ∧
                   inner !! "legend" = Some (VBool false)) ∧
    (kwargs !! "title" = None →
     final_settings fig !! "title"
     = Some (VStr ("Colour Rendering Index - " +:+ strict_name spd))).
Proof.
  unfold single_spd_colour_rendering_index_bars_plot, override_style.
  rewrite cri_plot_store, cri_plot_figure.
  intros Hfig _ Hh.
  pose proof (compute_specifications_length colour_rendering_index [spd] h) as Hlen.
  destruct ((computed [spd] h).1) as [|s [|? ?]] eqn:Hspecs; try done.
  clear Hlen. rewrite fmap_cons, fmap_nil in Hfig.
  destruct (call_colour_quality_bars_plot _ _ _ _) as [fig0|e] eqn:Hcall;
    simpl in Hfig; [|done].
  injection Hfig as <-.
  unfold call_colour_quality_bars_plot in Hcall.
  case_decide; [done|]. rewrite !lookup_insert_ne in Hcall by done.
  rewrite Hh in Hcall. simpl in Hcall.
  pose proof (colour_quality_bars_plot_settings _ _ _ _ _ _ _ _ Hcall)
    as (s_last & _ & _ & Hr).
  apply colour_quality_bars_plot_spec in Hcall
    as (_ & _ & Hbars & Hdrawn & _).
  destruct (Hdrawn 0%nat _ eq_refl)
    as (b & Hb & _ & Hhei & _ & _ & _ & Hlab & Hhat).
  pose proof (hatches_for_palette _ _ _ _ _ _ _ Hhat) as [pattern Hpat].
  assert (Hpat0 : hatch_patterns COLOUR_STYLE_CONSTANTS !! 0%nat
                  = Some pattern).
  { destruct (hatch_patterns COLOUR_STYLE_CONSTANTS) as [|p ps]; [done|].
    by rewrite Nat.Div0.mod_0_l in Hpat. }
  unfold hatches_for, next_pattern in Hhat. rewrite Hpat in Hhat.
  simpl in Hhat. injection Hhat as Hhat.
  exists s, b, pattern.
  split; [done|]. split.
  { simpl. destruct (fig_bars fig0) as [|b0 [|? ?]]; try done.
    by injection Hb as ->. }
  split; [done|]. split; [done|]. split; [done|]. split; [done|]. split.
  - intros Hl. simpl. rewrite Hr. simpl. eexists _, _. split; [done|].
    rewrite lookup_union_r
      by (rewrite !lookup_delete_ne by done; by rewrite lookup_insert_ne).
    by simplify_map_eq.
  - intros Ht. unfold final_settings, render. simpl. rewrite last_snoc.
    simpl. rewrite lookup_union_r by done. by simplify_map_eq.
Qed.

End CRIWrapper.

Section CQSWrapper.
Context {TS TC : Type} `{HasQ_a TS} `{HasXYZ TC}.
Variable COLOUR_STYLE_CONSTANTS : StyleConstants.
Variable XYZ_to_plotting_colourspace : XYZ_t → RGB_t.
Variable colour_quality_scale : SpectralPowerDistribution → Specification TS TC.

Local Abbreviation cqs_plot :=
  (multi_spd_colour_quality_scale_bars_plot COLOUR_STYLE_CONSTANTS
     XYZ_to_plotting_colourspace colour_quality_scale).

(** X12: a figure the CQS wrapper returns was made from at least one
    distribution, on a non-empty palette and without a keyword called
    [specifications].  It holds one bar container per distribution, drawn
    from the specification as [colour_quality_scale] returned it: labelled
    with its name, as high as its absolute scores, filled with the neutral
    colour and the conversions of the [XYZ] of its records as they are
    (nothing is rescaled).  It is titled ["Colour Quality Scale - "] followed
    by the names joined by [", "], or with the caller's title. *)
Theorem cqs_plot_spec spds kwargs fig :
  cqs_plot spds kwargs = Ok fig →
  spds ≠ [] ∧
  hatch_patterns COLOUR_STYLE_CONSTANTS ≠ [] ∧
  kwargs !! "specifications" = None ∧
  length (fig_bars fig) = length spds ∧
  (∀ j spd, spds !! j = Some spd →
     ∃ b, fig_bars fig !! j = Some b ∧
          bar_label b = name (colour_quality_scale spd) ∧
          bar_height b = Qabs <$> y_values (colour_quality_scale spd) ∧
          bar_color b
          = (1, 1, 1)%Q ::
              ((λ x : TC, clip_RGB (XYZ_to_plotting_colourspace (XYZ_of x)))
                 <$> (colorimetry_data (colour_quality_scale spd)).1)) ∧
  final_settings fig !! "title"
  = Some (default (VStr ("Colour Quality Scale - " +:+ joined_names spds))
                  (kwargs !! "title")).
Proof.
  unfold multi_spd_colour_quality_scale_bars_plot, override_style.
  destruct (call_colour_quality_bars_plot _ _ _ _) as [fig0|e] eqn:Hcall;
    simpl; [|done].
  intros [= <-].
  pose proof (inner_call_spec _ _ _ _ _ Hcall) as (Hk & Hlen & _).
  unfold call_colour_quality_bars_plot in Hcall.
  case_decide; [done|].
  apply colour_quality_bars_plot_spec in Hcall
    as (s_last & Hlast & _ & Hdrawn & _).
  assert (Hne : spds ≠ []) by (by intros ->).
  assert (Hp : hatch_patterns COLOUR_STYLE_CONSTANTS ≠ []).
  { destruct spds as [|spd0 spds']; [done|].
    destruct (Hdrawn 0%nat (colour_quality_scale spd0) eq_refl)
      as (b0 & _ & _ & _ & _ & _ & _ & _ & Hhat).
    apply hatches_for_palette in Hhat as [p Hpat].
    intros Hnil. by rewrite Hnil in Hpat. }
  split; [done|]. split; [done|]. split; [done|].
  split; [by rewrite length_fmap in Hlen|]. split.
  - intros j spd Hj.
    destruct (Hdrawn j (colour_quality_scale spd)) as (b & Hb & Hd).
    { by rewrite list_lookup_fmap, Hj. }
    exists b. split; [done|].
    destruct Hd as (_ & Hh & Hc & _ & _ & Hl & _). done.
  - unfold final_settings, render. simpl. rewrite last_snoc. simpl.
    destruct (kwargs !! "title") as [v|] eqn:Ht; simpl.
    + by apply lookup_union_Some_l.
    + rewrite lookup_union_r by done. by simplify_map_eq.
Qed.

End CQSWrapper.

(** ** Sample numbers, bars and tick labels *)

Lemma seq_keys_sorted (n : nat) (start : nat) :
  StronglySorted Z.lt (Z.of_nat <$> seq start n).
Proof.
  revert start. induction n as [|n IH]; intros start; simpl; constructor.
  - apply IH.
  - apply Forall_fmap, Forall_forall. intros k Hk. simpl.
    apply elem_of_seq in Hk. lia.
Qed.

Section SampleNumbers.
Context {TS TC : Type} `{HasQ_a TS} `{HasXYZ TC}.
Variable COLOUR_STYLE_CONSTANTS : StyleConstants.
Variable XYZ_to_plotting_colourspace : XYZ_t → RGB_t.

Local Abbreviation plot :=
  (colour_quality_bars_plot COLOUR_STYLE_CONSTANTS XYZ_to_plotting_colourspace).

Lemma sorted_items_keys (m : gmap Z TS) (n : nat) :
  (∀ k : Z, is_Some (m !! k) ↔ (1 ≤ k ≤ Z.of_nat n)%Z) →
  (sorted_items m).*1 = Z.of_nat <$> seq 1 n.
Proof.
  intros Hkeys. destruct (sorted_items_spec m) as [Hperm Hsorted].
  apply (StronglySorted_unique_strong Z.lt).
  - intros x1 x2 _ _ ? ?. lia.
  - clear Hperm. induction Hsorted as [|a items _ IH Hall]; simpl;
      constructor; [done|].
    apply Forall_fmap. by eapply Forall_impl.
  - apply seq_keys_sorted.
  - apply NoDup_Permutation.
    + rewrite Hperm. apply NoDup_fst_map_to_list.
    + apply (NoDup_fmap_2 _). apply NoDup_seq.
    + intros k. rewrite Hperm. split.
      * intros Hk. apply list_elem_of_fmap in Hk as [[k' sc] [-> Hin]].
        apply elem_of_map_to_list in Hin. simpl.
        assert (Hr : (1 ≤ k' ≤ Z.of_nat n)%Z) by (apply Hkeys; by eexists).
        apply list_elem_of_fmap. exists (Z.to_nat k').
        split; [lia|]. apply elem_of_seq. lia.
      * intros Hk. apply list_elem_of_fmap in Hk as [i [-> Hi]].
        apply elem_of_seq in Hi.
        destruct (proj2 (Hkeys (Z.of_nat i))) as [sc Hsc]; [lia|].
        apply list_elem_of_fmap. exists (Z.of_nat i, sc).
        split; [done|]. by apply elem_of_map_to_list.
Qed.

(** X16: when the samples of a specification are numbered 1 to [n], bar
    [k] of its container (bar 0 being the overall score) shows the
    absolute score of sample [k]; and the label [set_xticks] is given at
    position [k], for [k] from 1 to the number of samples of the last
    specification plus one, is ["Q"] followed by the decimal digits of
    [k]. *)
Theorem bars_follow_sample_numbers (specs : list (Specification TS TC))
    labels hatching hatching_repeat kwargs fig j s (n : nat) :
  plot specs labels hatching hatching_repeat kwargs = Ok fig →
  specs !! j = Some s →
  (∀ k : Z, is_Some (Q_as s !! k) ↔ (1 ≤ k ≤ Z.of_nat n)%Z) →
  ∃ b s_last ticks tick_labels,
    fig_bars fig !! j = Some b ∧
    last specs = Some s_last ∧
    fig_xticks fig = Some (ticks, tick_labels) ∧
    length (bar_height b) = Datatypes.S n ∧
    bar_height b !! 0%nat = Some (Qabs (Q_a s)) ∧
    (∀ (k : nat) sc, Q_as s !! Z.of_nat k = Some sc →
       bar_height b !! k = Some (Qabs (Q_a_of sc))) ∧
    tick_labels !! 0%nat = Some "Qa" ∧
    (∀ k : nat, (1 ≤ k ≤ size (Q_as s_last) + 1)%nat →
       tick_labels !! k = Some ("Q" +:+ pretty (Z.of_nat k))).
Proof.
  intros Hfig Hs Hkeys.
  apply colour_quality_bars_plot_spec in Hfig
    as (s_last & Hlast & _ & Hdrawn & Hx & _).
  destruct (Hdrawn j s Hs) as (b & Hb & _ & Hh & _).
  exists b, s_last, (xtick_positions (size (Q_as s_last)) (length specs)),
         (xtick_labels (size (Q_as s_last))).
  split; [done|]. split; [done|]. split; [exact Hx|].
  pose proof (sorted_items_keys (Q_as s) n Hkeys) as Hsk.
  assert (Hlen : length (sorted_items (Q_as s)) = n).
  { apply (f_equal length) in Hsk.
    by rewrite !length_fmap, length_seq in Hsk. }
  rewrite Hh. unfold y_values. rewrite fmap_cons.
  split; [simpl; by rewrite !length_fmap, Hlen|]. split; [done|]. split.
  - intros k sc Hsc.
    assert (Hk : (1 ≤ Z.of_nat k ≤ Z.of_nat n)%Z)
      by (apply Hkeys; by eexists).
    destruct k as [|k]; [lia|]. simpl.
    destruct (lookup_lt_is_Some_2 (sorted_items (Q_as s)) k)
      as [[k' sc'] Hit]; [lia|].
    assert (Hkey : (sorted_items (Q_as s)).*1 !! k = Some k')
      by (by rewrite list_lookup_fmap, Hit).
    rewrite Hsk, list_lookup_fmap in Hkey.
    destruct (seq 1 n !! k) as [i|] eqn:Hi; simpl in Hkey; [|done].
    apply lookup_seq in Hi as [-> _]. injection Hkey as <-.
    assert (Hin : (Z.of_nat (1 + k), sc') ∈ map_to_list (Q_as s)).
    { destruct (sorted_items_spec (Q_as s)) as [Hperm _].
      rewrite <- Hperm. by eapply list_elem_of_lookup_2. }
    apply elem_of_map_to_list in Hin.
    replace (Z.of_nat (1 + k)) with (Z.of_nat (Datatypes.S k)) in Hin by lia.
    rewrite Hsc in Hin. injection Hin as ->.
    by rewrite !list_lookup_fmap, Hit.
  - split; [by rewrite xtick_labels_eq|].
    intros k Hk. rewrite xtick_labels_eq.
    destruct k as [|k]; [lia|].
    change (("Qa" :: ?l) !! Datatypes.S k) with (l !! k).
    rewrite list_lookup_fmap.
    rewrite (proj2 (lookup_seq 0 (Datatypes.S (size (Q_as s_last))) k k))
      by lia.
    simpl. do 3 f_equal. lia.
Qed.

End SampleNumbers.

(** ** The further properties at concrete inputs *)

(** X2 at the two-sample source. *)
Lemma reference_line_and_yticks_witness :
  ∃ fig,
    colour_quality_bars_plot Examples.style Examples.to_display
      [Examples.two_samples] (VBool true) VNone (VInt 2) ∅ = Ok fig ∧
    fig_hlines fig = [(100%Q, "#333333", "--")] ∧
    fig_yticks fig = Some [0; 10; 20; 30; 40; 50; 60; 70; 80; 90; 100]%Z.
Proof.
  eexists. split; [reflexivity|].
  apply (reference_line_and_yticks Examples.style Examples.to_display
           [Examples.two_samples] (VBool true) VNone (VInt 2) ∅).
  reflexivity.
Defined.

(** X3 at a one-sample and a two-sample source: three tick positions, four
    labels, the last of them ["Q3"]. *)
Lemma xticks_one_label_too_many_witness :
  ∃ fig ticks tick_labels,
    colour_quality_bars_plot Examples.style Examples.to_display
      [Examples.one_sample; Examples.two_samples] (VBool true) VNone
      (VInt 2) ∅ = Ok fig ∧
    fig_xticks fig = Some (ticks, tick_labels) ∧
    length ticks = 3%nat ∧ length tick_labels = 4%nat ∧
    last tick_labels = Some "Q3".
Proof.
  destruct (xticks_one_label_too_many Examples.style Examples.to_display
              [Examples.one_sample; Examples.two_samples] (VBool true) VNone
              (VInt 2) ∅ _ eq_refl)
    as (s_last & ticks & tick_labels & Hlast & Hx & Hn & Hl & Hq).
  injection Hlast as <-.
  eexists _, ticks, tick_labels. split; [reflexivity|].
  split; [exact Hx|]. split; [exact Hn|]. split; [exact Hl|]. exact Hq.
Defined.

(** X4 with three sources and a palette of two patterns: the third
    container is hatched like the first. *)
Lemma hatch_pattern_cycle_witness :
  ∃ fig b,
    colour_quality_bars_plot MoreExamples.two_patterns Examples.to_display
      (replicate 3 Examples.one_sample) (VBool true) VNone (VInt 2) ∅
    = Ok fig ∧
    fig_bars fig !! 2%nat = Some b ∧
    bar_hatches b = [Some "////"; Some "////"].
Proof.
  assert (Hfig : ∃ fig,
            colour_quality_bars_plot MoreExamples.two_patterns
              Examples.to_display (replicate 3 Examples.one_sample)
              (VBool true) VNone (VInt 2) ∅ = Ok fig)
    by (eexists; reflexivity).
  destruct Hfig as [fig Hfig].
  destruct (hatch_pattern_cycle MoreExamples.two_patterns Examples.to_display
              (replicate 3 Examples.one_sample) (VBool true) VNone (VInt 2) ∅
              fig 2 Examples.one_sample Hfig eq_refl)
    as (b & pattern & Hb & Hp & glyph & Hg & Hh).
  injection Hp as <-. injection Hg as <-.
  exists fig, b. split; [exact Hfig|]. split; [exact Hb|]. exact Hh.
Defined.

(** X5 at the two-sample source. *)
Lemma bar_container_lengths_witness :
  ∃ fig b,
    colour_quality_bars_plot Examples.style Examples.to_display
      [Examples.two_samples] (VBool true) VNone (VInt 2) ∅ = Ok fig ∧
    fig_bars fig !! 0%nat = Some b ∧
    length (bar_x b) = 3%nat ∧ length (bar_height b) = 3%nat ∧
    length (bar_hatches b) = 3%nat ∧ length (bar_color b) = 3%nat.
Proof.
  destruct (bar_container_lengths Examples.style Examples.to_display
              [Examples.two_samples] (VBool true) VNone (VInt 2) ∅
              _ 0 Examples.two_samples eq_refl eq_refl)
    as (b & Hb & Hx & Hh & Hhat & Hc).
  eexists _, b. split; [reflexivity|]. split; [exact Hb|].
  split; [exact Hx|]. split; [exact Hh|]. split; [exact Hhat|]. exact Hc.
Defined.

(** X6: the overall-score bars of two sources, side by side. *)
Lemma bars_do_not_overlap_witness :
  ∃ fig b b' x x',
    colour_quality_bars_plot Examples.style Examples.to_display
      [Examples.one_sample; Examples.two_samples] (VBool true) VNone
      (VInt 2) ∅ = Ok fig ∧
    fig_bars fig !! 0%nat = Some b ∧ fig_bars fig !! 1%nat = Some b' ∧
    bar_x b !! 0%nat = Some x ∧ bar_x b' !! 0%nat = Some x' ∧
    ((x + bar_width <= x')%Q ∨ (x' + bar_width <= x)%Q).
Proof.
  eexists _, _, _, _, _.
  split; [reflexivity|]. split; [reflexivity|]. split; [reflexivity|].
  split; [reflexivity|]. split; [reflexivity|].
  eapply (bars_do_not_overlap Examples.style Examples.to_display
            [Examples.one_sample; Examples.two_samples] (VBool true) VNone
            (VInt 2) ∅ _ 0 1 _ _ 0 0);
    try reflexivity. discriminate.
Defined.

(** X7: the tick of the first sample group of two sources. *)
Lemma xticks_centred_in_groups_witness :
  ∃ fig ticks tick_labels t,
    colour_quality_bars_plot Examples.style Examples.to_display
      [Examples.one_sample; Examples.one_sample] (VBool true) VNone
      (VInt 2) ∅ = Ok fig ∧
    fig_xticks fig = Some (ticks, tick_labels) ∧
    ticks !! 1%nat = Some t ∧
    group_of 2 t = 1%Z ∧ (t == 2)%Q.
Proof.
  eexists _, _, _, _.
  split; [reflexivity|]. split; [reflexivity|]. split; [reflexivity|].
  split; [|reflexivity].
  eapply (xticks_centred_in_groups Examples.style Examples.to_display
            [Examples.one_sample; Examples.one_sample] (VBool true) VNone
            (VInt 2) ∅ _ _ _ 1); reflexivity.
Defined.

(** X8: one source, labelled horizontally with the signed scores. *)
Lemma labels_follow_specifications_witness :
  ∃ fig c,
    colour_quality_bars_plot Examples.style Examples.to_display
      [Examples.two_samples] (VBool true) VNone (VInt 2) ∅ = Ok fig ∧
    fig_labels fig !! 0%nat = Some c ∧
    lc_values c = [90; 95; -3]%Q ∧ lc_rotation c = "horizontal" ∧
    (0 < lc_text_size c)%Q.
Proof.
  destruct (proj2 (labels_follow_specifications Examples.style
                     Examples.to_display [Examples.two_samples] (VBool true)
                     VNone (VInt 2) ∅ _ eq_refl) eq_refl)
    as [_ Hcalls].
  destruct (Hcalls 0%nat Examples.two_samples eq_refl)
    as (c & Hc & (Hv & _ & Hrot & _) & Hsize).
  eexists _, c. split; [reflexivity|]. split; [exact Hc|].
  split; [rewrite Hv; vm_compute; reflexivity|]. split; [exact Hrot|].
  apply Hsize. simpl. lia.
Defined.

(** X9: a caller's title. *)
Lemma caller_keywords_win_witness :
  ∃ fig,
    colour_quality_bars_plot Examples.style Examples.to_display
      [Examples.two_samples] (VBool true) VNone (VInt 2)
      {[ "title" := VStr "Mine" ]} = Ok fig ∧
    final_settings fig !! "title" = Some (VStr "Mine").
Proof.
  eexists. split; [reflexivity|].
  exact (proj2 (caller_keywords_win Examples.style Examples.to_display
                  [Examples.two_samples] (VBool true) VNone (VInt 2)
                  {[ "title" := VStr "Mine" ]} _ "title" eq_refl)).
Defined.

(** X10: a one-sample source last, after a two-sample source: the last bar
    of the first container starts beyond the right bound of the view. *)
Lemma bounding_box_follows_last_specification_witness :
  ∃ fig x_max b x,
    colour_quality_bars_plot Examples.style Examples.to_display
      [Examples.two_samples; Examples.one_sample] (VBool true) VNone
      (VInt 2) ∅ = Ok fig ∧
    final_settings fig !! "bounding_box"
    = Some (VTuple4 (- bar_width) x_max 0 120) ∧
    (x_max == 3)%Q ∧
    fig_bars fig !! 0%nat = Some b ∧
    bar_x b !! 2%nat = Some x ∧ (x_max <= x)%Q.
Proof.
  destruct (bounding_box_follows_last_specification Examples.style
              Examples.to_display
              [Examples.two_samples; Examples.one_sample] (VBool true) VNone
              (VInt 2) ∅ _ eq_refl (lookup_empty _))
    as (s_last & x_max & Hlast & Hbox & Hmax & Hbars).
  injection Hlast as <-.
  destruct (Hbars 0%nat Examples.two_samples eq_refl)
    as (b & Hb & _ & Hout).
  destruct Hout as (x & Hx & Hle); [vm_compute; lia|].
  eexists _, x_max, b, x. split; [reflexivity|]. split; [exact Hbox|].
  split; [rewrite Hmax; reflexivity|]. split; [exact Hb|].
  split; [exact Hx|]. exact Hle.
Defined.

(** X11: the CRI wrapper called with [standalone=True]. *)
Lemma cri_renders_twice_witness :
  ∃ fig inner,
    (multi_spd_colour_rendering_index_bars_plot Examples.style
       Examples.to_display Examples.cri
       [Examples.F2; Examples.Kinoton_75P]
       {[ "standalone" := VBool true ]} ∅).1 = Ok fig ∧
    fig_renders fig !! 0%nat = Some inner ∧
    inner !! "standalone" = Some (VBool false) ∧
    final_settings fig !! "standalone" = Some (VBool true).
Proof.
  assert (Hfig : ∃ fig,
            (multi_spd_colour_rendering_index_bars_plot Examples.style
               Examples.to_display Examples.cri
               [Examples.F2; Examples.Kinoton_75P]
               {[ "standalone" := VBool true ]} ∅).1 = Ok fig)
    by (eexists; reflexivity).
  destruct Hfig as [fig Hfig].
  destruct (cri_renders_twice Examples.style Examples.to_display Examples.cri
              [Examples.F2; Examples.Kinoton_75P]
              {[ "standalone" := VBool true ]} ∅ fig Hfig)
    as (_ & (inner & Hr & Hst) & Hfinal & _).
  exists fig, inner. split; [exact Hfig|].
  split; [by rewrite Hr|]. split; [exact Hst|]. exact Hfinal.
Defined.

(** X15: the single-input CRI wrapper on F2. *)
Lemma single_cri_plot_is_unhatched_witness :
  ∃ fig b,
    (single_spd_colour_rendering_index_bars_plot Examples.style
       Examples.to_display Examples.cri Examples.F2 ∅ ∅).1 = Ok fig ∧
    fig_bars fig = [b] ∧
    bar_label b = "F2" ∧
    bar_height b = [64; 50]%Q ∧
    bar_hatches b = [None; None] ∧
    final_settings fig !! "title"
    = Some (VStr "Colour Rendering Index - F2").
Proof.
  assert (∃ fig,
    (single_spd_colour_rendering_index_bars_plot Examples.style
       Examples.to_display Examples.cri Examples.F2 ∅ ∅).1 = Ok fig)
    as [fig Hfig] by (eexists; reflexivity).
  destruct (single_cri_plot_is_unhatched Examples.style Examples.to_display
              Examples.cri Examples.F2 ∅ ∅ fig Hfig eq_refl eq_refl)
    as (s & b & pattern & Hs & Hb & Hl & Hh & _ & Hhat & _ & Ht).
  injection Hs as <-.
  exists fig, b. split; [exact Hfig|]. split; [exact Hb|].
  split; [exact Hl|]. split; [rewrite Hh; vm_compute; reflexivity|].
  split; [rewrite Hhat; vm_compute; reflexivity|].
  apply Ht. reflexivity.
Defined.

Lemma two_samples_keys (k : Z) :
  is_Some (Q_as Examples.two_samples !! k) ↔ (1 ≤ k ≤ Z.of_nat 2)%Z.
Proof.
  simpl. destruct (decide (k = 1%Z)) as [->|H1]; [split; [lia|by eexists]|].
  destruct (decide (k = 2%Z)) as [->|H2]; [split; [lia|by eexists]|].
  rewrite lookup_insert_ne by done. rewrite lookup_singleton_ne by done.
  split; [by intros [? [=]]|lia].
Qed.

(** X16: the two-sample source, whose samples are numbered 1 and 2. *)
Lemma bars_follow_sample_numbers_witness :
  ∃ fig b tick_labels,
    colour_quality_bars_plot Examples.style Examples.to_display
      [Examples.two_samples] (VBool true) VNone (VInt 2) ∅ = Ok fig ∧
    fig_bars fig !! 0%nat = Some b ∧
    bar_height b !! 2%nat = Some (Qabs (-3)) ∧
    (snd <$> fig_xticks fig) = Some tick_labels ∧
    tick_labels !! 2%nat = Some "Q2".
Proof.
  destruct (bars_follow_sample_numbers Examples.style Examples.to_display
              [Examples.two_samples] (VBool true) VNone (VInt 2) ∅ _ 0
              Examples.two_samples 2 eq_refl eq_refl two_samples_keys)
    as (b & s_last & ticks & tick_labels & Hb & Hlast & Hx & _ & _ & Hk
        & _ & Hl).
  injection Hlast as <-.
  eexists _, b, tick_labels. split; [reflexivity|]. split; [exact Hb|].
  split; [exact (Hk 2%nat (Examples.score "TCS02" (-3)) eq_refl)|].
  split; [by rewrite Hx|]. apply (Hl 2%nat). vm_compute. lia.
Defined.

(** ** The caller's store, and the single-input CQS wrapper *)

Section CallersStore.
Variable COLOUR_STYLE_CONSTANTS : StyleConstants.
Variable XYZ_to_plotting_colourspace : XYZ_t → RGB_t.
Variable colour_rendering_index :
  SpectralPowerDistribution → heap → CRI_Specification * heap.

Local Abbreviation computed := (compute_specifications colour_rendering_index).

Lemma compute_specifications_fresh :
  allocates_fresh colour_rendering_index →
  ∀ spds (h : heap),
    (∀ l, l ∈ dom h → (computed spds h).2 !! l = h !! l) ∧
    Forall (λ s, test_loc s ∉ dom h) (computed spds h).1.
Proof.
  intros Hfresh. induction spds as [|spd spds IH]; intros h; simpl.
  - split; [done|constructor].
  - destruct (Hfresh spd h) as [Hnew Hold].
    destruct (colour_rendering_index spd h) as [s h'] eqn:Hc. simpl in *.
    destruct (IH h') as [Hold' Hnew'].
    destruct (computed spds h') as [ss h''] eqn:Hcs. simpl in *.
    assert (Hsub : ∀ l, l ∈ dom h → l ∈ dom h').
    { intros l Hl. apply elem_of_dom. rewrite (Hold l Hl).
      by apply elem_of_dom. }
    split.
    + intros l Hl. rewrite (Hold' l (Hsub l Hl)). by apply Hold.
    + constructor; [done|].
      eapply Forall_impl; [exact Hnew'|]. intros s' Hs' Hin.
      apply Hs'. by apply Hsub.
Qed.

(** X17: when [colour_rendering_index] builds the test data of every
    specification in a list object of its own and leaves existing lists
    alone, the CRI wrapper leaves every list of the caller's store as it
    found it, whether it returns or raises: the rescale only reaches the
    lists made during the call. *)
Theorem cri_plot_leaves_callers_store spds kwargs (h : heap) (l : loc) :
  allocates_fresh colour_rendering_index →
  l ∈ dom h →
  (multi_spd_colour_rendering_index_bars_plot COLOUR_STYLE_CONSTANTS
     XYZ_to_plotting_colourspace colour_rendering_index spds kwargs h).2 !! l
  = h !! l.
Proof.
  intros Hfresh Hl. rewrite cri_plot_store.
  destruct (compute_specifications_fresh Hfresh spds h) as [Hold Hnew].
  rewrite rescale_specifications_frame; [by apply Hold|].
  intros Hin. apply list_elem_of_fmap in Hin as [s [-> Hs]].
  rewrite Forall_forall in Hnew. by apply (Hnew s Hs).
Qed.

End CallersStore.

Section SingleCQS.
Context {TS TC : Type} `{HasQ_a TS} `{HasXYZ TC}.
Variable COLOUR_STYLE_CONSTANTS : StyleConstants.
Variable XYZ_to_plotting_colourspace : XYZ_t → RGB_t.
Variable colour_quality_scale : SpectralPowerDistribution → Specification TS TC.

(** X18: a figure the single-input CQS wrapper returns, when it is called
    without a [hatching] keyword (and without a keyword [spds], which the
    call of the multi-input wrapper would not accept), holds one bar
    container: labelled with the name of the specification, as high as the
    absolute scores, hatched with the first pattern of the palette on the
    bars of negative scores only, and titled ["Colour Quality Scale - "]
    followed by the name of the distribution unless the caller passes a
    title. *)
Theorem single_cqs_plot_spec spd kwargs fig :
  single_spd_colour_quality_scale_bars_plot COLOUR_STYLE_CONSTANTS
    XYZ_to_plotting_colourspace colour_quality_scale spd kwargs = Ok fig →
  kwargs !! "spds" = None →
  kwargs !! "hatching" = None →
  ∃ b pattern,
    fig_bars fig = [b] ∧
    bar_label b = name (colour_quality_scale spd) ∧
    bar_height b = Qabs <$> y_values (colour_quality_scale spd) ∧
    hatch_patterns COLOUR_STYLE_CONSTANTS !! 0%nat = Some pattern ∧
    bar_hatches b
    = negative_hatches pattern (y_values (colour_quality_scale spd)) ∧
    (kwargs !! "title" = None →
     final_settings fig !! "title"
     = Some (VStr ("Colour Quality Scale - " +:+ strict_name spd))).
Proof.
  unfold single_spd_colour_quality_scale_bars_plot,
    multi_spd_colour_quality_scale_bars_plot, override_style.
  change (colour_quality_scale <$> [spd]) with [colour_quality_scale spd].
  intros Hfig _ Hh.
  destruct (call_colour_quality_bars_plot _ _ _ _) as [fig0|e] eqn:Hcall;
    simpl in Hfig; [|done].
  injection Hfig as <-.
  unfold call_colour_quality_bars_plot in Hcall.
  case_decide; [done|]. rewrite !lookup_insert_ne in Hcall by done.
  rewrite Hh in Hcall. simpl in Hcall.
  apply colour_quality_bars_plot_spec in Hcall
    as (_ & _ & Hbars & Hdrawn & _).
  destruct (Hdrawn 0%nat (colour_quality_scale spd) eq_refl)
    as (b & Hb & _ & Hhei & _ & _ & _ & Hlab & Hhat).
  pose proof (hatches_for_palette _ _ _ _ _ _ _ Hhat) as [pattern Hpat].
  assert (Hpat0 : hatch_patterns COLOUR_STYLE_CONSTANTS !! 0%nat
                  = Some pattern).
  { destruct (hatch_patterns COLOUR_STYLE_CONSTANTS) as [|p ps]; [done|].
    by rewrite Nat.Div0.mod_0_l in Hpat. }
  unfold hatches_for, next_pattern in Hhat. rewrite Hpat in Hhat.
  simpl in Hhat. injection Hhat as Hhat.
  exists b, pattern. split.
  { simpl. destruct (fig_bars fig0) as [|b0 [|? ?]]; try done.
    by injection Hb as ->. }
  split; [done|]. split; [done|]. split; [done|]. split; [done|].
  intros Ht. unfold final_settings, render. simpl. rewrite last_snoc.
  simpl. rewrite lookup_union_r by done. by simplify_map_eq.
Qed.

End SingleCQS.

Lemma fresh_loc_above (h : heap) (l : loc) :
  l ∈ dom h → (l < Examples.fresh_loc h)%positive.
Proof.
  unfold Examples.fresh_loc.
  assert (Hle : ∀ l, l ∈ dom h →
            (l ≤ map_fold (λ l _ acc, Pos.max l acc) 1 h)%positive).
  { apply (map_fold_weak_ind
             (λ acc (m : heap), ∀ l, l ∈ dom m → (l ≤ acc)%positive)).
    - intros l' Hl'. by rewrite dom_empty_L in Hl'.
    - intros i x m r _ IH l' Hl'. rewrite dom_insert_L in Hl'.
      apply elem_of_union in Hl' as [Hi|Hm].
      + apply elem_of_singleton in Hi as ->. lia.
      + specialize (IH l' Hm). lia. }
  intros Hl. specialize (Hle l Hl). lia.
Qed.

Lemma examples_cri_allocates_fresh : allocates_fresh Examples.cri.
Proof.
  intros spd h. unfold Examples.cri, test_loc. simpl. split.
  - intros Hin. apply fresh_loc_above in Hin. lia.
  - intros l Hl. apply fresh_loc_above in Hl.
    rewrite !lookup_insert_ne by lia. done.
Qed.

(** X17 at a store that already holds a list of the caller's. *)
Lemma cri_plot_leaves_callers_store_witness :
  (multi_spd_colour_rendering_index_bars_plot Examples.style
     Examples.to_display Examples.cri [Examples.F2; Examples.Kinoton_75P] ∅
     {[ 7%positive := [Examples.sample "mine" 50 100 20] ]}).2 !! 7%positive
  = Some [Examples.sample "mine" 50 100 20].
Proof.
  rewrite (cri_plot_leaves_callers_store Examples.style Examples.to_display
             Examples.cri [Examples.F2; Examples.Kinoton_75P] ∅
             {[ 7%positive := [Examples.sample "mine" 50 100 20] ]}
             7%positive examples_cri_allocates_fresh).
  - apply lookup_singleton_eq.
  - rewrite dom_singleton_L. by apply elem_of_singleton.
Defined.

(** X18 at F2. *)
Lemma single_cqs_plot_spec_witness :
  ∃ fig b,
    single_spd_colour_quality_scale_bars_plot Examples.style
      Examples.to_display MoreExamples.cqs Examples.F2 ∅ = Ok fig ∧
    fig_bars fig = [b] ∧
    bar_label b = "F2" ∧
    bar_hatches b = [None; None; Some "\\"] ∧
    final_settings fig !! "title" = Some (VStr "Colour Quality Scale - F2").
Proof.
  assert (∃ fig,
    single_spd_colour_quality_scale_bars_plot Examples.style
      Examples.to_display MoreExamples.cqs Examples.F2 ∅ = Ok fig)
    as [fig Hfig] by (eexists; reflexivity).
  destruct (single_cqs_plot_spec Examples.style Examples.to_display
              MoreExamples.cqs Examples.F2 ∅ fig Hfig eq_refl eq_refl)
    as (b & pattern & Hb & Hl & _ & Hp & Hh & Ht).
  injection Hp as <-.
  exists fig, b. split; [exact Hfig|]. split; [exact Hb|].
  split; [exact Hl|]. split; [exact Hh|]. apply Ht. reflexivity.
Defined.

(** X12 at F2 and Kinoton 75P. *)
Lemma cqs_plot_spec_witness :
  ∃ fig,
    multi_spd_colour_quality_scale_bars_plot Examples.style
      Examples.to_display MoreExamples.cqs
      [Examples.F2; Examples.Kinoton_75P] ∅ = Ok fig ∧
    length (fig_bars fig) = 2%nat ∧
    (bar_color <$> fig_bars fig)
    = [[(1, 1, 1); (1, 1 # 3, 0); (0, 1 # 2, 1)]%Q;
       [(1, 1, 1); (1, 1 # 3, 0); (0, 1 # 2, 1)]%Q] ∧
    final_settings fig !! "title"
    = Some (VStr "Colour Quality Scale - F2, Kinoton 75P").
Proof.
  assert (∃ fig,
    multi_spd_colour_quality_scale_bars_plot Examples.style
      Examples.to_display MoreExamples.cqs
      [Examples.F2; Examples.Kinoton_75P] ∅ = Ok fig)
    as [fig Hfig] by (eexists; reflexivity).
  destruct (cqs_plot_spec Examples.style Examples.to_display
              MoreExamples.cqs [Examples.F2; Examples.Kinoton_75P] ∅ fig Hfig)
    as (_ & _ & _ & Hlen & _ & Ht).
  exists fig. split; [exact Hfig|]. split; [exact Hlen|].
  split; [by injection Hfig as <-|]. exact Ht.
Defined.

(** X1 at the one-sample and the two-sample source, hatching on. *)
Lemma colour_quality_bars_plot_outcome_witness :
  ∃ fig,
    colour_quality_bars_plot Examples.style Examples.to_display
      [Examples.one_sample; Examples.two_samples] (VBool true) VNone (VInt 2) ∅
    = Ok fig ∧
    hatch_patterns Examples.style !! 0%nat = Some "\\" ∧
    repeat_count (VInt 2) = Some 2%Z.
Proof.
  assert (∃ fig,
    colour_quality_bars_plot Examples.style Examples.to_display
      [Examples.one_sample; Examples.two_samples] (VBool true) VNone (VInt 2) ∅
    = Ok fig)
    as [fig Hfig] by (eexists; reflexivity).
  destruct (colour_quality_bars_plot_outcome Examples.style
              Examples.to_display
              [Examples.one_sample; Examples.two_samples] (VBool true) VNone
              (VInt 2) ∅ fig Hfig)
    as (_ & pattern & Hp & Hn).
  destruct (Hn eq_refl) as (n & Hn' & _).
  exists fig. split; [exact Hfig|]. split; [reflexivity|]. reflexivity.
Defined.
